(** * Metadata reconciliation: a shallow embedding of [code.py]

    The development follows the Python source function by function.

    - Python [str] values are Rocq [string]s; a character stands for the
      code point of the same number (0..255), so that [lower] and [strip]
      act as Python's do on that range.
    - a [dict] with string keys is a [gmap string _]; where the insertion
      order of a dict decides the output (the groups of the ledger, the
      field-mapping table) an association list is used instead.
    - a loop over the items of a dict that touches every key once is a
      [map_fold]; its result is then described by a lookup lemma.
    - a pandas [DataFrame] is its set of column labels together with the
      list of its rows; a cell that pandas holds as NaN is a key that is
      absent from the row, any other cell is the string [str(val)].
    - a file is the list of its lines, a document the list of its tables.
    - exceptions are the left summand of [result]. *)

From Stdlib Require Import ZArith QArith Lia Ascii String.
From stdpp Require Import base option list gmap sets strings sorting.

#[local] Set Warnings "-clear-no-such-hyp".

Local Open Scope stdpp_scope.

(** ** Python string methods *)

Module PyStr.

(** The line feed character and the double quote. *)
Definition nl : string := String "010"%char "".
Definition dquote : string := String "034"%char "".

(** [c.isspace()] for a code point below 256. *)
Definition isspace (c : ascii) : bool :=
  let n := N_of_ascii c in
  ((9 <=? n) && (n <=? 13) || (28 <=? n) && (n <=? 32)
   || (n =? 133) || (n =? 160))%N.

(** [c.lower()] for a code point below 256: A-Z and the accented capitals
    192..222 (the multiplication sign 215 apart) move up by 32. *)
Definition lower_char (c : ascii) : ascii :=
  let n := N_of_ascii c in
  if ((65 <=? n) && (n <=? 90)
      || (192 <=? n) && (n <=? 222) && negb (n =? 215))%N
  then ascii_of_N (n + 32) else c.

Fixpoint lower (s : string) : string :=
  match s with
  | EmptyString => EmptyString
  | String c s' => String (lower_char c) (lower s')
  end.

(** [s.lstrip()], [s.rstrip()], [s.strip()]. *)
Fixpoint lstrip (s : string) : string :=
  match s with
  | EmptyString => EmptyString
  | String c s' => if isspace c then lstrip s' else s
  end.

Fixpoint rstrip (s : string) : string :=
  match s with
  | EmptyString => EmptyString
  | String c s' =>
      match rstrip s' with
      | EmptyString => if isspace c then EmptyString else String c EmptyString
      | r => String c r
      end
  end.

Definition strip (s : string) : string := lstrip (rstrip s).

(** [s.lstrip(chars)] for a one-character [chars]. *)
Fixpoint lstrip_char (x : ascii) (s : string) : string :=
  match s with
  | EmptyString => EmptyString
  | String c s' => if Ascii.eqb c x then lstrip_char x s' else s
  end.

(** [s.startswith(p)] and [s.endswith(p)]. *)
Definition startswith (p s : string) : bool := String.prefix p s.
Definition endswith (p s : string) : bool :=
  String.prefix (String.rev p) (String.rev s).

(** [sub in s]. *)
Fixpoint contains (sub s : string) : bool :=
  String.prefix sub s ||
  match s with
  | EmptyString => false
  | String _ s' => contains sub s'
  end.

(** The truth value of a string. *)
Definition truthy (s : string) : bool :=
  match s with EmptyString => false | _ => true end.

(** [s.split(sep, 1)] for a one-character [sep], when [sep in s]:
    the text before the first [sep] and the text after it. *)
Fixpoint split_first (sep : ascii) (s : string) : option (string * string) :=
  match s with
  | EmptyString => None
  | String c s' =>
      if Ascii.eqb c sep then Some (EmptyString, s')
      else match split_first sep s' with
           | Some (k, v) => Some (String c k, v)
           | None => None
           end
  end.

(** [s.split(sep)] for a non-empty [sep]. The list returned is never
    empty: its head is the piece that is being read. [skip] counts the
    characters of a separator that are still to be passed over. *)
Fixpoint split_go (sep : string) (skip : nat) (s : string) : list string :=
  match s with
  | EmptyString => [EmptyString]
  | String c s' =>
      match skip with
      | S k => split_go sep k s'
      | O =>
          if String.prefix sep s
          then EmptyString :: split_go sep (String.length sep - 1) s'
          else match split_go sep 0 s' with
               | p :: ps => String c p :: ps
               | [] => [String c EmptyString]
               end
      end
  end.
Definition split (sep s : string) : list string := split_go sep 0 s.

(** [s.replace(old, new)] for a non-empty [old]. *)
Fixpoint replace_go (old new : string) (skip : nat) (s : string) : string :=
  match s with
  | EmptyString => EmptyString
  | String c s' =>
      match skip with
      | S k => replace_go old new k s'
      | O =>
          if String.prefix old s
          then new +:+ replace_go old new (String.length old - 1) s'
          else String c (replace_go old new 0 s')
      end
  end.
Definition replace (old new s : string) : string := replace_go old new 0 s.

(** [sep.join(l)]. *)
Fixpoint join (sep : string) (l : list string) : string :=
  match l with
  | [] => EmptyString
  | [x] => x
  | x :: l' => x +:+ sep +:+ join sep l'
  end.

(** [sorted(set(values))]: the distinct values in increasing order. *)
Definition sorted_set (values : list string) : list string :=
  merge_sort String.le (elements (list_to_set values : gset string)).

End PyStr.

(** ** [difflib.SequenceMatcher], as far as [ratio()] uses it

    The matcher is built with [isjunk = None] and the default
    [autojunk = True]; indices are natural numbers. *)

Module Difflib.

Definition block : Type := nat * nat * nat.
Definition region : Type := nat * nat * nat * nat.

(** [__chain_b]: [b2j] maps every element of [b] to the increasing list
    of its positions; [i] is the position of the head of [b]. *)
Fixpoint index_all (i : nat) (b : list ascii) (b2j : gmap ascii (list nat))
  : gmap ascii (list nat) :=
  match b with
  | [] => b2j
  | elt :: b' =>
      index_all (S i) b' (<[elt := default [] (b2j !! elt) ++ [i]]> b2j)
  end.

(** With [isjunk = None] no element is junk. *)
Definition bjunk : gset ascii := ∅.
Definition isbjunk (c : ascii) : bool := bool_decide (c ∈ bjunk).

(** The popular elements of a [b] of 200 elements or more are purged. *)
Definition chain_b (b : list ascii) : gmap ascii (list nat) :=
  let b2j := index_all 0 b ∅ in
  let n := length b in
  if 200 <=? n
  then let ntest := n / 100 + 1 in
       filter (λ kv : ascii * list nat, ¬ ntest < length kv.2) b2j
  else b2j.

Section find_longest_match.
Context (a b : list ascii) (b2j : gmap ascii (list nat)).

(** [j2lenget(j-1, 0)]: the key -1 is never present. *)
Definition j2lenget (j2len : gmap nat nat) (j : nat) : nat :=
  match j with
  | O => 0
  | S j' => default 0 (j2len !! j')
  end.

(** The inner [for j in b2j.get(a[i], nothing)] loop. The new best block
    starts at [i-k+1] and [j-k+1], written [i + 1 - k] and [j + 1 - k] on
    natural numbers; [scan_row_in] below has [k ≤ i + 1] and [k ≤ j + 1]. *)
Fixpoint scan_row (i blo bhi : nat) (j2len : gmap nat nat)
    (idxs : list nat) (newj2len : gmap nat nat) (best : block)
  : gmap nat nat * block :=
  match idxs with
  | [] => (newj2len, best)
  | j :: idxs' =>
      if j <? blo then scan_row i blo bhi j2len idxs' newj2len best
      else if bhi <=? j then (newj2len, best)
      else
        let k := j2lenget j2len j + 1 in
        let newj2len := <[j := k]> newj2len in
        let best := if best.2 <? k then (i + 1 - k, j + 1 - k, k) else best in
        scan_row i blo bhi j2len idxs' newj2len best
  end.

(** One turn of the outer [for i in range(alo, ahi)] loop; [ahi] never
    exceeds the length of [a], so [a[i]] is there. *)
Definition scan_step (blo bhi : nat) (st : gmap nat nat * block) (i : nat)
  : gmap nat nat * block :=
  match a !! i with
  | Some c => scan_row i blo bhi st.1 (default [] (b2j !! c)) ∅ st.2
  | None => st
  end.

Definition scan (alo ahi blo bhi : nat) : gmap nat nat * block :=
  foldl (scan_step blo bhi) (∅, (alo, blo, 0)) (seq alo (ahi - alo)).

Definition same_elt (i j : nat) : bool :=
  match a !! i, b !! j with
  | Some x, Some y => bool_decide (x = y)
  | _, _ => false
  end.

Definition elt_ok (ok : ascii → bool) (j : nat) : bool :=
  match b !! j with Some y => ok y | None => false end.

(** [while besti > alo and bestj > blo and ok(b[bestj-1]) and
    a[besti-1] == b[bestj-1]]. *)
Fixpoint extend_back (ok : ascii → bool) (alo blo : nat)
    (besti bestj bestsize : nat) : block :=
  match besti, bestj with
  | S i', S j' =>
      if (alo <? besti) && (blo <? bestj) && elt_ok ok j' && same_elt i' j'
      then extend_back ok alo blo i' j' (S bestsize)
      else (besti, bestj, bestsize)
  | _, _ => (besti, bestj, bestsize)
  end.

(** [while besti+bestsize < ahi and bestj+bestsize < bhi and
    ok(b[bestj+bestsize]) and a[besti+bestsize] == b[bestj+bestsize]];
    [n] bounds the number of turns and starts at
    [ahi - (besti+bestsize)]. *)
Fixpoint extend_fwd (ok : ascii → bool) (ahi bhi : nat)
    (besti bestj : nat) (n : nat) (bestsize : nat) : nat :=
  match n with
  | O => bestsize
  | S n' =>
      if (besti + bestsize <? ahi) && (bestj + bestsize <? bhi)
         && elt_ok ok (bestj + bestsize)
         && same_elt (besti + bestsize) (bestj + bestsize)
      then extend_fwd ok ahi bhi besti bestj n' (S bestsize)
      else bestsize
  end.

Definition extend (ok : ascii → bool) (alo ahi blo bhi : nat) (x : block)
  : block :=
  let '(besti, bestj, bestsize) :=
    extend_back ok alo blo x.1.1 x.1.2 x.2 in
  (besti, bestj,
   extend_fwd ok ahi bhi besti bestj (ahi - (besti + bestsize)) bestsize).

Definition find_longest_match (alo ahi blo bhi : nat) : block :=
  let x := (scan alo ahi blo bhi).2 in
  let x := extend (λ c, negb (isbjunk c)) alo ahi blo bhi x in
  extend isbjunk alo ahi blo bhi x.

(** The [while queue] loop of [get_matching_blocks]; the head of
    [queue] is the end of the Python list, where [pop] and [append]
    work. [None]: [fuel] turns were not enough. *)
Fixpoint mb_loop (fuel : nat) (queue : list region)
    (matching_blocks : list block) : option (list block) :=
  match queue with
  | [] => Some matching_blocks
  | (alo, ahi, blo, bhi) :: queue =>
      match fuel with
      | O => None
      | S fuel' =>
          let '(i, j, k) := find_longest_match alo ahi blo bhi in
          if k =? 0 then mb_loop fuel' queue matching_blocks
          else
            let queue :=
              if (alo <? i) && (blo <? j)
              then (alo, i, blo, j) :: queue else queue in
            let queue :=
              if (i + k <? ahi) && (j + k <? bhi)
              then (i + k, ahi, j + k, bhi) :: queue else queue in
            mb_loop fuel' queue (matching_blocks ++ [(i, j, k)])
      end
  end.
End find_longest_match.

(** The order of tuples, for [matching_blocks.sort()]. *)
Definition block_leb (x y : block) : bool :=
  let '(i1, j1, k1) := x in
  let '(i2, j2, k2) := y in
  (i1 <? i2) || (i1 =? i2) && ((j1 <? j2) || (j1 =? j2) && (k1 <=? k2)).
Definition block_le (x y : block) : Prop := block_leb x y = true.
#[global] Instance block_le_dec : RelDecision block_le.
Proof. intros x y. unfold block_le. apply _. Defined.

(** The loop that merges adjacent blocks, with the final flush. *)
Fixpoint collapse (cur : block) (blocks non_adjacent : list block)
  : list block :=
  match blocks with
  | [] => if cur.2 =? 0 then non_adjacent else non_adjacent ++ [cur]
  | (i2, j2, k2) :: blocks' =>
      let '(i1, j1, k1) := cur in
      if (i1 + k1 =? i2) && (j1 + k1 =? j2)
      then collapse (i1, j1, k1 + k2) blocks' non_adjacent
      else collapse (i2, j2, k2) blocks'
             (if k1 =? 0 then non_adjacent else non_adjacent ++ [cur])
  end.

Definition get_matching_blocks (a b : list ascii) : option (list block) :=
  let la := length a in
  let lb := length b in
  blocks ← mb_loop a b (chain_b b) (2 * la + 1) [(0, la, 0, lb)] [];
  Some (collapse (0, 0, 0) (merge_sort block_le blocks) [] ++ [(la, lb, 0)]).

(** [_calculate_ratio(matches, length)]; the float is the rational of the
    same value. *)
Definition calculate_ratio (matches length : nat) : Q :=
  if length =? 0 then 1%Q
  else (2 * inject_Z (Z.of_nat matches) / inject_Z (Z.of_nat length))%Q.

Definition ratio (a b : list ascii) : option Q :=
  blocks ← get_matching_blocks a b;
  Some (calculate_ratio (sum_list_with snd blocks) (length a + length b)).

End Difflib.

(** [round(x, 2)], ties to the even hundredth. The result is the rational
    [h / 100]. Python rounds the binary double nearest to [x]; the two agree
    unless [x] is within the error of a double of a tie. *)
Definition round2 (x : Q) : Q :=
  let n := (Qnum x * 100)%Z in
  let d := Zpos (Qden x) in
  let f := (n / d)%Z in
  let r := (n mod d)%Z in
  let h := if (2 * r <? d)%Z then f
           else if (d <? 2 * r)%Z then (f + 1)%Z
           else if Z.even f then f else (f + 1)%Z in
  Qmake h 100.

(** ** Utility functions of [code.py] *)

(** [similar(a, b)]; [None] only if the matcher ran out of fuel, which
    [similar_range] below excludes. *)
Definition similar (a b : string) : option Q :=
  r ← Difflib.ratio (list_ascii_of_string (PyStr.lower a))
                    (list_ascii_of_string (PyStr.lower b));
  Some (round2 (r * 100)).

(** ** Exceptions and values *)

Inductive exn := KeyError | ValueError | AttributeError | OutOfFuel.

Definition result (A : Type) : Type := exn + A.
Definition Ok {A} (x : A) : result A := inr x.
Definition Raise {A} (e : exn) : result A := inl e.

#[global] Instance result_bind : MBind result :=
  λ A B f x, match x with inl e => inl e | inr a => f a end.
#[global] Instance result_ret : MRet result := λ A x, inr x.

(** A cell of the report: a string, the integer of [else 0], the float of
    [similar], or NaN. *)
Inductive value := VStr (s : string) | VInt (n : Z) | VFloat (q : Q) | VNaN.

(** ** The pandas objects [code.py] uses *)

Record DataFrame := {
  columns : gset string;
  rows : list (gmap string string)
}.

(** A row as [iterrows()] yields it: the labels of the frame and the cells
    that are not NaN. *)
Record Series := {
  index : gset string;
  cells : gmap string string
}.

Definition iterrows (df : DataFrame) : list Series :=
  (λ r, {| index := columns df; cells := r |}) <$> rows df.

(** [str(val)] of a cell: NaN prints as [nan]. *)
Definition str_cell (val : option string) : string := default "nan" val.

(** [str(row.get(col, dflt))]. *)
Definition str_get (row : Series) (col dflt : string) : string :=
  if bool_decide (col ∈ index row) then str_cell (cells row !! col) else dflt.

(** [bool(row)]: the truth value of a Series is ambiguous, pandas raises. *)
Definition series_bool (row : Series) : result bool := Raise ValueError.

(** [pd.DataFrame(records)] from a list of dicts: the labels are the keys
    that occur; a key missing from a dict is NaN in its row. *)
Definition DataFrame_of (records : list (gmap string string)) : DataFrame :=
  {| columns := ⋃ (dom <$> records); rows := records |}.

(** ** Configuration *)

Definition COLUMN_MAPPING : list (string * string) :=
  [("Excel_ID", "ID"); ("Excel_Objective", "Objective"); ("Excel_Author", "Author")].

Definition JAVA_KEY_MAP : gmap string string :=
  list_to_map [("id", "ID"); ("description", "Objective");
               ("title", "Filename"); ("author", "Author")].

Definition WORD_KEY_MAP : gmap string string := JAVA_KEY_MAP.

(** ** [merge_excel_rows] *)

(** [grouped[filename][col].append(str(val).strip())] for every cell of a
    row that is not NaN. *)
Definition append_cells (data : gmap string (list string))
    (row : gmap string string) : gmap string (list string) :=
  map_fold (λ col val data,
              <[col := default [] (data !! col) ++ [PyStr.strip val]]> data)
           data row.

(** [grouped] in insertion order. *)
Fixpoint group_add (filename : string) (row : gmap string string)
    (grouped : list (string * gmap string (list string)))
  : list (string * gmap string (list string)) :=
  match grouped with
  | [] => [(filename, append_cells ∅ row)]
  | (g, data) :: rest =>
      if decide (g = filename) then (g, append_cells data row) :: rest
      else (g, data) :: group_add filename row rest
  end.

(** [str(row.get("Filename", "")).strip().lower()]. *)
Definition group_key (row : Series) : string :=
  PyStr.lower (PyStr.strip (str_get row "Filename" "")).

(** The first loop; a row whose cells are all NaN touches no group. *)
Definition group_rows (df : DataFrame)
  : list (string * gmap string (list string)) :=
  foldl (λ grouped row,
           if decide (cells row = ∅) then grouped
           else group_add (group_key row) (cells row) grouped)
        [] (iterrows df).

(** [merged_row]: the entries of [data] are written into
    [{"Filename": fname}], so a [Filename] entry of [data] replaces the
    group key. *)
Definition merged_row (fname : string) (data : gmap string (list string))
  : gmap string string :=
  map_fold (λ col values merged_row,
              <[col := PyStr.join PyStr.nl (PyStr.sorted_set values)]> merged_row)
           {["Filename" := fname]} data.

(** The second loop: every group with its merged row. *)
Definition merged_groups (df : DataFrame) : list (string * gmap string string) :=
  (λ g, (g.1, merged_row g.1 g.2)) <$> group_rows df.

Definition merge_excel_rows (df : DataFrame) : DataFrame :=
  DataFrame_of (snd <$> merged_groups df).

(** ** Extractor: Python *)

(** The loop of [extract_comment_header] over the lines of the file. *)
Fixpoint comment_loop (lines : list string) (data : gmap string string)
    (current_key : option string) : gmap string string :=
  match lines with
  | [] => data
  | line :: rest =>
      if negb (PyStr.startswith "#" (PyStr.strip line)) then data
      else
        let content := PyStr.strip (PyStr.lstrip_char "#" line) in
        match PyStr.split_first ":" content with
        | Some (key, val) =>
            comment_loop rest (<[PyStr.strip key := PyStr.strip val]> data)
                         (Some (PyStr.strip key))
        | None =>
            match current_key with
            | Some k =>
                if PyStr.truthy k
                then comment_loop rest
                       (alter (λ v, v +:+ PyStr.nl +:+ PyStr.strip content) k data)
                       current_key
                else comment_loop rest data current_key
            | None => comment_loop rest data current_key
            end
        end
  end.

Definition extract_comment_header (file : list string) : gmap string string :=
  comment_loop file ∅ None.

(** ** Extractor: Java *)

Definition header_marker : string := "public static String Header".
Definition header_end : string := PyStr.dquote +:+ ";".

(** The loop of [extract_java_header] over the lines of the file. *)
Fixpoint java_loop (file : list string) (header_started : bool)
    (lines : list string) : list string :=
  match file with
  | [] => lines
  | line :: rest =>
      if PyStr.contains header_marker line then java_loop rest true lines
      else if header_started then
        if PyStr.contains header_end line then lines
        else java_loop rest header_started (lines ++ [PyStr.strip line])
      else java_loop rest header_started lines
  end.

(** The second loop: the logical lines of the header, split at the first
    colon, keys sent through [JAVA_KEY_MAP]. *)
Definition java_fields (full_header : string) : gmap string string :=
  foldl (λ data line,
           match PyStr.split_first ":" line with
           | Some (key, val) =>
               let key := PyStr.strip key in
               <[default key (JAVA_KEY_MAP !! PyStr.lower key) := PyStr.strip val]> data
           | None => data
           end)
        ∅ (PyStr.split "\n" full_header).

(** [full_header]: the lines joined, then the two [replace] calls, which
    delete every double quote followed by a plus sign and then every double
    quote that is left. *)
Definition full_header_of (lines : list string) : string :=
  PyStr.replace PyStr.dquote ""
    (PyStr.replace (PyStr.dquote +:+ "+") "" (PyStr.join "" lines)).

Definition extract_java_header (file : list string) : gmap string string :=
  java_fields (full_header_of (java_loop file false [])).

(** ** Extractor: Word *)

(** A table of a document is the list of its rows, a row the list of the
    texts of its cells. *)
Definition table : Type := list (list string).
Definition Document : Type := list table.

(** [metadata[key] = value] for every row of table 0 with two cells or more
    and a non-empty key. *)
Definition read_metadata (t : table) : gmap string string :=
  foldl (λ metadata row,
           match row with
           | c0 :: c1 :: _ =>
               let key := PyStr.strip c0 in
               let val := PyStr.strip c1 in
               if PyStr.truthy key then <[key := val]> metadata else metadata
           | _ => metadata
           end) ∅ t.

(** The rows of one case table: a key seen again has its value appended. *)
Definition read_case (t : table) : gmap string string :=
  foldl (λ case_data row,
           match row with
           | c0 :: c1 :: _ =>
               let key := PyStr.strip c0 in
               let val := PyStr.strip c1 in
               if PyStr.truthy key then
                 match case_data !! key with
                 | Some old => <[key := old +:+ PyStr.nl +:+ val]> case_data
                 | None => <[key := val]> case_data
                 end
               else case_data
           | _ => case_data
           end) ∅ t.

(** The identifiers listed under a key that contains [another id]. *)
Definition listed_ids (v : string) : gset string :=
  list_to_set
    (filter (λ p, PyStr.truthy p = true)
       (PyStr.strip <$> PyStr.split "," (PyStr.replace ";" "," v))).

Definition expected_ids_of (metadata : gmap string string) : gset string :=
  map_fold (λ k v expected_ids,
              if PyStr.contains "another id" (PyStr.lower k)
              then listed_ids v ∪ expected_ids else expected_ids)
           ∅ metadata.

(** [case_data.get("Case ID") or case_data.get("case id")]. *)
Definition case_id (case_data : gmap string string) : option string :=
  match case_data !! "Case ID" with
  | Some cid => if PyStr.truthy cid then Some cid else case_data !! "case id"
  | None => case_data !! "case id"
  end.

Definition found_ids_of (cases : list (gmap string string)) : gset string :=
  foldl (λ found case_data,
           match case_id case_data with
           | Some cid =>
               if PyStr.truthy cid then {[PyStr.strip cid]} ∪ found else found
           | None => found
           end) ∅ cases.

(** The diagnostics. Python joins the elements of a set in an order it does
    not specify; [elements] stands for that order. *)
Definition id_mismatches (expected_ids found_ids : gset string) : list string :=
  (if decide (expected_ids ∖ found_ids = ∅) then []
   else ["IDs in template but not in cases: "
         +:+ PyStr.join ", " (elements (expected_ids ∖ found_ids))])
  ++
  (if decide (found_ids ∖ expected_ids = ∅) then []
   else ["Case IDs not listed in template: "
         +:+ PyStr.join ", " (elements (found_ids ∖ expected_ids))]).

Definition extract_word_cases (doc : Document)
  : gmap string string * list (gmap string string) * list string :=
  match doc with
  | t0 :: ((_ :: _) as case_tables) =>
      let metadata := read_metadata t0 in
      let cases := read_case <$> case_tables in
      (metadata, cases,
       id_mismatches (expected_ids_of metadata) (found_ids_of cases))
  | _ => (∅, [], ["Template or test cases not found"])
  end.

(** [combined_fields]: the fields of all cases, a key seen in an earlier
    case having the later value appended. *)
Definition combine_cases (cases : list (gmap string string))
  : gmap string string :=
  foldl (λ combined_fields case_data,
           map_fold (λ key val combined_fields,
                       match combined_fields !! key with
                       | Some old =>
                           <[key := old +:+ PyStr.nl +:+ val]> combined_fields
                       | None => <[key := val]> combined_fields
                       end)
                    combined_fields case_data) ∅ cases.

(** The loop over [combined_fields.items()]: a key that [result] has not
    is filled, a key that it has gets the case value appended. *)
Definition flatten (metadata combined_fields : gmap string string)
  : gmap string string :=
  map_fold (λ k v result,
              match result !! k with
              | None => <[k := v]> result
              | Some old => <[k := old +:+ PyStr.nl +:+ v]> result
              end)
           metadata combined_fields.

Definition extract_word_header (doc : Document) : gmap string string :=
  let '(metadata, cases, mismatches) := extract_word_cases doc in
  let result := flatten metadata (combine_cases cases) in
  match mismatches with
  | [] => result
  | _ => <["Word Template Issues" := PyStr.join "; " mismatches]> result
  end.

(** ** Main comparison logic *)

(** A folder as [os.listdir] and the extractor see it: the names of its
    files, each with what the extractor reads from it. *)
Definition folder (C : Type) : Type := list (string * C).

(** The loop over one folder: [data = extractor(path)], then the two
    assignments [data["Filename"] = fname] and [data["FileType"] = filetype]. *)
Fixpoint collect_folder {C} (ext : string) (extractor : C → gmap string string)
    (filetype : string) (dir : folder C) : list (gmap string string) :=
  match dir with
  | [] => []
  | (fname, file) :: rest =>
      if negb (PyStr.endswith ext fname)
      then collect_folder ext extractor filetype rest
      else <["FileType" := filetype]> (<["Filename" := fname]> (extractor file))
           :: collect_folder ext extractor filetype rest
  end.

Definition collect_files (py java : folder (list string)) (word : folder Document)
  : list (gmap string string) :=
  collect_folder ".py" extract_comment_header "Python" py
  ++ collect_folder ".java" extract_java_header "Java" java
  ++ collect_folder ".docx" extract_word_header "Word" word.

(** [df = merge_excel_rows(df)] and [df["Filename"] = df["Filename"].str.strip()];
    a frame without rows has no [Filename] label. *)
Definition normalize_ledger (raw : DataFrame) : result DataFrame :=
  let df := merge_excel_rows raw in
  if bool_decide ("Filename" ∈ columns df)
  then Ok {| columns := columns df;
             rows := alter PyStr.strip "Filename" <$> rows df |}
  else Raise KeyError.

(** [excel_map]: a later row replaces an earlier one under the same key. *)
Definition excel_map_of (df : DataFrame) : gmap string Series :=
  foldl (λ m row,
           <[PyStr.lower (PyStr.strip (str_cell (cells row !! "Filename"))) := row]> m)
        ∅ (iterrows df).

(** The loop over [COLUMN_MAPPING.items()]; the state is
    [(file_remarks, excel_remarks)]. *)
Definition compare_fields (excel_row : Series) (file_data : gmap string string)
  : list string * list string :=
  foldl (λ remarks (m : string * string),
           let '(excel_col, extracted_key) := m in
           let expected := PyStr.strip (str_get excel_row excel_col "") in
           let actual := PyStr.strip (default "" (file_data !! extracted_key)) in
           if PyStr.truthy expected && negb (PyStr.truthy actual)
           then (remarks.1 ++ [extracted_key +:+ ": missing"], remarks.2)
           else if PyStr.truthy actual && negb (PyStr.truthy expected)
           then (remarks.1, remarks.2 ++ [extracted_key +:+ ": missing"])
           else if bool_decide (expected ≠ actual)
           then (remarks.1 ++ [extracted_key +:+ ": mismatch"], remarks.2)
           else remarks)
        ([], []) COLUMN_MAPPING.

(** The [Error] tag of a matched row. *)
Definition classify (file_remarks excel_remarks : list string) : string :=
  match file_remarks, excel_remarks with
  | _ :: _, [] => "mismatch error"
  | [], _ :: _ => "missing errors"
  | _ :: _, _ :: _ => "missing" +:+ PyStr.nl +:+ "mismatch"
  | [], [] => ""
  end.

(** The loop [for k, v in file_data.items()] that adds the extracted
    fields the entry has not. *)
Definition passthrough (file_data : gmap string string)
    (entry : gmap string value) : gmap string value :=
  map_fold (λ k v entry,
              match entry !! k with
              | Some _ => entry
              | None => <[k := VStr v]> entry
              end)
           entry file_data.

(** A result of the matcher; [OutOfFuel] stands for a matcher that does not
    return, which [similar_range] below excludes. *)
Definition lift_fuel {A} (x : option A) : result A :=
  match x with Some a => Ok a | None => Raise OutOfFuel end.

(** The body of [for file_data in all_files]. *)
Definition reconcile_file (excel_map : gmap string Series)
    (file_data : gmap string string) : result (gmap string value) :=
  let filename := PyStr.strip (default "" (file_data !! "Filename")) in
  let filename_lower := PyStr.lower filename in
  let excel_row := excel_map !! filename_lower in
  title ← match excel_row with
           | Some row =>
               match cells row !! "Filename" with
               | Some title => q ← lift_fuel (similar filename title); Ok (VFloat q)
               | None => Raise AttributeError
               end
           | None => Ok (VInt 0)
           end;
  let entry : gmap string value :=
    <["Title Match %" := title]>
      (<["FileType" := VStr (default "" (file_data !! "FileType"))]>
         {["Filename" := VStr filename]}) in
  checked ← match excel_row with
             | Some row =>
                 b ← series_bool row;
                 if b : bool then
                   let '(file_remarks, excel_remarks) := compare_fields row file_data in
                   Ok (file_remarks, excel_remarks, classify file_remarks excel_remarks)
                 else Ok ([], [], "filename missing in excel")
             | None => Ok ([], [], "filename missing in excel")
             end;
  let '(file_remarks, excel_remarks, error) := checked in
  let entry := <["Error" := VStr error]> entry in
  let entry := <["Excel Remarks" := VStr (PyStr.join "; " excel_remarks)]> entry in
  let entry := <["File Remarks" := VStr (PyStr.join "; " file_remarks)]> entry in
  Ok (passthrough file_data entry).

(** The loop over [all_files]; the state is [(results, processed_files)]. *)
Fixpoint reconcile_all (excel_map : gmap string Series)
    (all_files : list (gmap string string))
    (results : list (gmap string value)) (processed_files : gset string)
  : result (list (gmap string value) * gset string) :=
  match all_files with
  | [] => Ok (results, processed_files)
  | file_data :: rest =>
      let filename := PyStr.strip (default "" (file_data !! "Filename")) in
      let processed_files := {[PyStr.lower filename]} ∪ processed_files in
      entry ← reconcile_file excel_map file_data;
      reconcile_all excel_map rest (results ++ [entry]) processed_files
  end.

(** The loop over [df["Filename"]] that adds the ledger rows no file was
    found for. *)
Definition missing_row (filename : option string) : gmap string value :=
  <["Error" := VStr "file not found"]>
    {["Filename" := match filename with Some f => VStr f | None => VNaN end]}.

Definition add_missing (df : DataFrame) (processed_files : gset string)
    (results : list (gmap string value)) : list (gmap string value) :=
  foldl (λ results row,
           let filename := row !! "Filename" in
           let fname_lower := PyStr.lower (PyStr.strip (str_cell filename)) in
           if bool_decide (fname_lower ∈ processed_files) then results
           else results ++ [missing_row filename])
        results (rows df).

(** [main], from the frame read from the ledger file and the three folders
    to the records handed to [to_excel]. *)
Definition main (raw : DataFrame) (py java : folder (list string))
    (word : folder Document) : result (list (gmap string value)) :=
  df ← normalize_ledger raw;
  let all_files := collect_files py java word in
  let excel_map := excel_map_of df in
  st ← reconcile_all excel_map all_files [] ∅;
  Ok (add_missing df st.2 st.1).

(** ** Vocabulary of the statements *)

(** The key under which a record is looked up: its filename, trimmed and
    lower-cased. *)
Definition file_key (file_data : gmap string string) : string :=
  PyStr.lower (PyStr.strip (default "" (file_data !! "Filename"))).

(** A string that [strip] leaves alone. *)
Definition clean (s : string) : Prop :=
  PyStr.lstrip s = s ∧ PyStr.rstrip s = s.

(** The [Filename] column of a frame. *)
Definition ledger_filenames (df : DataFrame) : list string :=
  (λ row, str_cell (row !! "Filename")) <$> rows df.

(** No record of [all_files] has the key of the ledger filename. *)
Definition never_matched (all_files : list (gmap string string))
    (filename : string) : Prop :=
  Forall (λ file_data, file_key file_data ≠ PyStr.lower (PyStr.strip filename))
         all_files.
#[global] Instance never_matched_dec all_files filename :
  Decision (never_matched all_files filename).
Proof. unfold never_matched. apply _. Defined.

(** ** Quantities used in the proofs about [merge_excel_rows] *)

(** The text before the first line feed. *)
Definition first_line (s : string) : string :=
  match PyStr.split_first "010" s with
  | Some (k, _) => k
  | None => s
  end.

(** A string without a line feed. *)
Definition one_line (s : string) : Prop := PyStr.split_first "010" s = None.

(** The rows that the first loop of [merge_excel_rows] reads, each with its
    group key. *)
Definition keyed (df : DataFrame) : list (string * gmap string string) :=
  (λ row, (group_key row, cells row))
    <$> filter (λ row, cells row ≠ ∅) (iterrows df).

(** The keys in the order of their first occurrence. *)
Definition first_keys (ks : list string) : list string :=
  foldl (λ acc k, if decide (k ∈ acc) then acc else acc ++ [k]) [] ks.

(** What the first loop gathers for the group [g]. *)
Definition group_data (g : string) (R : list (string * gmap string string))
  : gmap string (list string) :=
  foldl append_cells ∅ (snd <$> filter (λ kr, kr.1 = g) R).

(** The trimmed cells of a column. *)
Definition col_values (col : string) (l : list (gmap string string)) : list string :=
  omap (λ r : gmap string string, PyStr.strip <$> r !! col) l.

(** The frame invariant of pandas: the cells of a row sit under labels of
    the frame. *)
Definition frame_ok (df : DataFrame) : Prop :=
  Forall (λ row : gmap string string, dom row ⊆ columns df) (rows df).

(** No cell outside the [Filename] column is blank. *)
Definition no_blank_cell (df : DataFrame) : Prop :=
  Forall (map_Forall (λ (col v : string), col ≠ "Filename" → PyStr.strip v ≠ ""))
         (rows df).

(** No filename has a line feed inside. *)
Definition one_line_filenames (df : DataFrame) : Prop :=
  Forall (map_Forall (λ (col v : string),
                        col = "Filename" → one_line (PyStr.strip v)))
         (rows df).

(** ** Quantities used in the proofs about [difflib] *)

(** The block [x] lies in the region read so far. *)
Definition block_in (alo blo i bhi : nat) (x : Difflib.block) : Prop :=
  alo ≤ x.1.1 ∧ x.1.1 + x.2 ≤ i ∧ blo ≤ x.1.2 ∧ x.1.2 + x.2 ≤ bhi.

(** The lengths kept in [j2len] after the rows below [i]. *)
Definition j2len_in (alo blo i : nat) (j2len : gmap nat nat) : Prop :=
  ∀ j k, j2len !! j = Some k → k ≤ i - alo ∧ k ≤ j + 1 - blo.

(** A region of the queue, the fuel the queue needs, and the room it still
    offers in [a] and in [b]. *)
Definition region_ok (r : Difflib.region) : Prop :=
  r.1.1.1 ≤ r.1.1.2 ∧ r.1.2 ≤ r.2.
Definition queue_weight (queue : list Difflib.region) : nat :=
  sum_list_with (λ r : Difflib.region, 2 * (r.1.1.2 - r.1.1.1) + 1) queue.
Definition room_a (queue : list Difflib.region) : nat :=
  sum_list_with (λ r : Difflib.region, r.1.1.2 - r.1.1.1) queue.
Definition room_b (queue : list Difflib.region) : nat :=
  sum_list_with (λ r : Difflib.region, r.2 - r.1.2) queue.

(** [sum(triple[-1] for triple in blocks)]. *)
Definition blocks_size (blocks : list Difflib.block) : nat :=
  sum_list_with snd blocks.

(** The positions of [c] in [b], counted from [i]. *)
Fixpoint positions (c : ascii) (i : nat) (b : list ascii) : list nat :=
  match b with
  | [] => []
  | x :: b' => (if decide (x = c) then [i] else []) ++ positions c (S i) b'
  end.

(** For two equal sequences: the elements that [b2j] still has, and the
    length of the run of such elements that ends at position [m]. *)
Definition kept (b2j : gmap ascii (list nat)) (s : list ascii) (m : nat) : bool :=
  match s !! m with
  | Some c => bool_decide (is_Some (b2j !! c))
  | None => false
  end.

Fixpoint run (b2j : gmap ascii (list nat)) (s : list ascii) (m : nat) : nat :=
  match m with
  | O => if kept b2j s 0 then 1 else 0
  | S m' => if kept b2j s m then S (run b2j s m') else 0
  end.

Definition run_before (b2j : gmap ascii (list nat)) (s : list ascii) (m : nat) : nat :=
  match m with
  | O => 0
  | S m' => run b2j s m'
  end.

(** The state of the scan of [s] against itself before row [i]. *)
Definition diag_inv (b2j : gmap ascii (list nat)) (s : list ascii) (i : nat)
    (st : gmap nat nat * Difflib.block) : Prop :=
  st.2.1.1 = st.2.1.2
  ∧ (∀ j, Difflib.j2lenget st.1 j ≤ run_before b2j s (i `min` j))
  ∧ Difflib.j2lenget st.1 i = run_before b2j s i
  ∧ (∀ m, m < i → run b2j s m ≤ st.2.2).

(** ** Inputs used in the examples *)

(** The ledger and the file of the end-to-end example: [report.py] is
    listed with ID 7 and carries ID 8. *)
Definition ledger_report : DataFrame :=
  {| columns := {["Filename"; "Excel_ID"]};
     rows := [ {["Filename" := "report.py"; "Excel_ID" := "7"]} ] |}.
Definition py_report : folder (list string) :=
  [("report.py", ["# ID: 8" +:+ PyStr.nl; "import os" +:+ PyStr.nl])].

(** A ledger that lists [ghost.py] only, and a folder with [extra.java]. *)
Definition ledger_ghost : DataFrame :=
  {| columns := {["Filename"; "Excel_ID"]};
     rows := [ {["Filename" := "ghost.py"; "Excel_ID" := "7"]} ] |}.
Definition java_extra : folder (list string) :=
  [("extra.java", ["class Extra {}" +:+ PyStr.nl])].

(** A ledger that lists [ghost.py] and [report.py]. *)
Definition ledger_ghost_report : DataFrame :=
  {| columns := {["Filename"; "Excel_ID"]};
     rows := [ {["Filename" := "ghost.py"; "Excel_ID" := "1"]};
               {["Filename" := "report.py"; "Excel_ID" := "7"]} ] |}.

(** The row of the report for [extra.java]. *)
Definition rows_extra : list (gmap string value) :=
  [ {[ "Filename" := VStr "extra.java"; "FileType" := VStr "Java";
       "Title Match %" := VInt 0; "Error" := VStr "filename missing in excel";
       "Excel Remarks" := VStr ""; "File Remarks" := VStr "" ]} ].

(** Two spellings of one filename, in both orders. *)
Definition ledger_variants : DataFrame :=
  {| columns := {["Filename"; "Excel_ID"]};
     rows := [ {["Filename" := "Report.py"; "Excel_ID" := "7"]};
               {["Filename" := " report.py"; "Excel_ID" := "8"]} ] |}.
Definition ledger_variants_swapped : DataFrame :=
  {| columns := {["Filename"; "Excel_ID"]};
     rows := [ {["Filename" := " report.py"; "Excel_ID" := "8"]};
               {["Filename" := "Report.py"; "Excel_ID" := "7"]} ] |}.

(** One filename listed twice, once with a blank cell. *)
Definition ledger_blank : DataFrame :=
  {| columns := {["Filename"; "X"]};
     rows := [ {["Filename" := "f.py"; "X" := " "]};
               {["Filename" := "f.py"; "X" := "a"]} ] |}.

(** A document whose template table and whose only case table both have a
    row [ID]. *)
Definition doc_collision : Document :=
  [ [["ID"; "1"]]; [["ID"; "2"]] ].

(** A document with a [title] row in its template table. *)
Definition doc_titled : Document :=
  [ [["title"; "My Title"]]; [["Case ID"; "c1"]] ].
Definition word_titled : folder Document := [("spec.docx", doc_titled)].

(** A Java file whose header literal is never closed. *)
Definition java_unterminated : list string :=
  [ "  public static String Header =" +:+ PyStr.nl;
    "    " +:+ PyStr.dquote +:+ "id: 7" +:+ PyStr.dquote +:+ PyStr.nl ].

(** A comment header whose first pair has the empty key. *)
Definition py_empty_key : list string :=
  [ "#: v" +:+ PyStr.nl; "# more" +:+ PyStr.nl ].

(** ** Quantities used in the further properties *)

(** What one row of a table gives under [key]: its second cell, trimmed,
    when it has two cells or more and its first cell, trimmed, is [key]. *)
Definition row_value (key : string) (row : list string) : option string :=
  match row with
  | c0 :: c1 :: _ =>
      if decide (PyStr.strip c0 = key) then Some (PyStr.strip c1) else None
  | _ => None
  end.

(** The values a table gives under [key], in the order of its rows. *)
Definition row_values (key : string) (t : table) : list string :=
  omap (row_value key) t.

(** No value when the list is empty, the values joined by line feeds
    otherwise. *)
Definition joined (vs : list string) : option string :=
  match vs with
  | [] => None
  | _ => Some (PyStr.join PyStr.nl vs)
  end.

(** The names that [JAVA_KEY_MAP] sends its aliases to. *)
Definition canonical_names : list string :=
  (map_to_list JAVA_KEY_MAP).*2.

(** The rows of the group [g] of a ledger: the rows that have a cell and
    whose key is [g]. *)
Definition group_of (df : DataFrame) (g : string) : list (gmap string string) :=
  (filter (λ kr : string * gmap string string, kr.1 = g) (keyed df)).*2.

(** The key of a ledger row in [excel_map]. *)
Definition row_key (row : Series) : string :=
  PyStr.lower (PyStr.strip (str_cell (cells row !! "Filename"))).

(** A record has a row of the ledger under its key. *)
Definition matched (df : DataFrame) (file_data : gmap string string) : Prop :=
  is_Some (excel_map_of df !! file_key file_data).
#[global] Instance matched_dec df file_data : Decision (matched df file_data).
Proof. unfold matched. apply _. Defined.

(** The columns that the reconciliation writes itself. *)
Definition report_columns : list string :=
  ["Filename"; "FileType"; "Title Match %"; "Error"; "Excel Remarks"; "File Remarks"].

(** The row of the report for a ledger filename without a file. *)
Definition residual_row (filename : string) : gmap string value :=
  {["Error" := VStr "file not found"; "Filename" := VStr filename]}.

(** The names of a folder that end in [ext]. *)
Definition names_with {C} (ext : string) (dir : folder C) : list string :=
  filter (λ fname, PyStr.endswith ext fname = true) dir.*1.

(** The ledger row and the record agree, after trimming, on the mapped
    field [m]. *)
Definition fields_agree (excel_row : Series) (file_data : gmap string string)
    (m : string * string) : Prop :=
  PyStr.strip (str_get excel_row m.1 "")
  = PyStr.strip (default "" (file_data !! m.2)).
#[global] Instance fields_agree_dec excel_row file_data m :
  Decision (fields_agree excel_row file_data m).
Proof. unfold fields_agree. apply _. Defined.

(** The remarks of a list that are about the field [key]. *)
Definition remarks_about (key : string) (remarks : list string) : list string :=
  filter (λ s, s = key +:+ ": missing" ∨ s = key +:+ ": mismatch") remarks.

(** The body of the loop of [compare_fields]. *)
Definition compare_step (excel_row : Series) (file_data : gmap string string)
    (remarks : list string * list string) (m : string * string)
  : list string * list string :=
  let '(excel_col, extracted_key) := m in
  let expected := PyStr.strip (str_get excel_row excel_col "") in
  let actual := PyStr.strip (default "" (file_data !! extracted_key)) in
  if PyStr.truthy expected && negb (PyStr.truthy actual)
  then (remarks.1 ++ [extracted_key +:+ ": missing"], remarks.2)
  else if PyStr.truthy actual && negb (PyStr.truthy expected)
  then (remarks.1, remarks.2 ++ [extracted_key +:+ ": missing"])
  else if bool_decide (expected ≠ actual)
  then (remarks.1 ++ [extracted_key +:+ ": mismatch"], remarks.2)
  else remarks.

(** A document of three tables whose keys repeat. *)
Definition doc_repeated : Document :=
  [ [["ID"; "0"]; ["ID"; " 1 "]; ["only one cell"]];
    [["ID"; "2"]; ["Case ID"; "c1"]; ["ID"; "3"]];
    [["ID"; "4"]] ].

(** A Java file with a line before the header, a header that is closed and
    a line after it. *)
Definition java_closed : list string :=
  [ "class T {" +:+ PyStr.nl;
    "  public static String Header =" +:+ PyStr.nl;
    "    " +:+ PyStr.dquote +:+ "id: 7\n" +:+ PyStr.dquote +:+ "+" +:+ PyStr.nl;
    "    " +:+ PyStr.dquote +:+ "Title: t.java" +:+ PyStr.dquote +:+ ";" +:+ PyStr.nl;
    "  String other = " +:+ PyStr.dquote +:+ "author: nobody" +:+ PyStr.dquote +:+ PyStr.nl ].

(** * Properties *)

(** ** The embedding at work *)

Example strip_ex : PyStr.strip "  a b  " = "a b".
Proof. reflexivity. Qed.
Example split_ex : PyStr.split "\n" "a\nb\n" = ["a"; "b"; ""].
Proof. reflexivity. Qed.
Example replace_ex : PyStr.replace "ab" "" "xabaab" = "xa".
Proof. reflexivity. Qed.
Example sorted_set_ex : PyStr.sorted_set ["b"; "a"; "b"] = ["a"; "b"].
Proof. vm_compute. reflexivity. Qed.
Example endswith_ex : PyStr.endswith ".py" "a.py" = true.
Proof. reflexivity. Qed.
Example similar_shifted : similar "abcd" "bcde" = Some (7500 # 100)%Q.
Proof. vm_compute. reflexivity. Qed.
Example similar_plural : similar "report.py" "reports.py" = Some (9474 # 100)%Q.
Proof. vm_compute. reflexivity. Qed.

(** ** The similarity scorer (lines 34-35) *)

Section flm_bounds.
Import Difflib.
Context (a b : list ascii) (b2j : gmap ascii (list nat)).

Lemma j2len_in_empty alo blo i : j2len_in alo blo i ∅.
Proof. intros j k. by rewrite lookup_empty. Qed.

Lemma j2lenget_in alo blo i j2len j :
  j2len_in alo blo i j2len →
  j2lenget j2len j ≤ i - alo ∧ j2lenget j2len j ≤ j - blo.
Proof.
  intros Hin. destruct j as [|j']; simpl; [lia|].
  destruct (j2len !! j') as [k|] eqn:Hk; simpl; [|lia].
  apply Hin in Hk. lia.
Qed.

Lemma scan_row_in alo blo bhi i j2len idxs newj2len best :
  alo ≤ i →
  j2len_in alo blo i j2len →
  j2len_in alo blo (S i) newj2len →
  block_in alo blo (S i) bhi best →
  j2len_in alo blo (S i) (scan_row i blo bhi j2len idxs newj2len best).1
  ∧ block_in alo blo (S i) bhi (scan_row i blo bhi j2len idxs newj2len best).2.
Proof.
  intros Hi Hold. revert newj2len best.
  induction idxs as [|j idxs IH]; intros newj2len best Hnew Hbest; simpl; [done|].
  destruct (j <? blo) eqn:Hlo; [by apply IH|].
  destruct (bhi <=? j) eqn:Hhi; [done|].
  apply Nat.ltb_ge in Hlo. apply Nat.leb_gt in Hhi.
  destruct (j2lenget_in alo blo i j2len j Hold) as [Hk1 Hk2].
  apply IH.
  - intros j' k'. rewrite lookup_insert. case_decide as Hj.
    + intros [= <-]. subst j'. lia.
    + apply Hnew.
  - destruct (best.2 <? _); [|done]. unfold block_in. simpl. lia.
Qed.

Lemma scan_in alo ahi blo bhi :
  alo ≤ ahi → blo ≤ bhi →
  block_in alo blo ahi bhi (scan a b2j alo ahi blo bhi).2.
Proof.
  intros Ha Hb. unfold scan.
  assert (∀ n i st, alo ≤ i →
            j2len_in alo blo i st.1 → block_in alo blo i bhi st.2 →
            block_in alo blo (i + n) bhi
              (foldl (scan_step a b2j blo bhi) st (seq i n)).2) as Hloop.
  { induction n as [|n IH]; intros i st Hi Hj Hbest; simpl.
    - by rewrite Nat.add_0_r.
    - replace (i + S n) with (S i + n) by lia.
      assert (block_in alo blo (S i) bhi st.2) as Hbest'.
      { unfold block_in in *. lia. }
      assert (j2len_in alo blo (S i) st.1) as Hj'.
      { intros j k Hk. apply Hj in Hk. lia. }
      unfold scan_step at 2. destruct (a !! i) as [c|]; [|by apply IH; [lia|..]].
      destruct (scan_row_in alo blo bhi i st.1 (default [] (b2j !! c)) ∅ st.2)
        as [H1 H2]; [done..|apply j2len_in_empty|done|].
      apply IH; [lia|done..]. }
  replace ahi with (alo + (ahi - alo)) at 1 by lia.
  apply Hloop; [done|apply j2len_in_empty|].
  unfold block_in. simpl. lia.
Qed.

Lemma extend_back_in ok alo blo besti bestj bestsize :
  alo ≤ besti → blo ≤ bestj →
  let x := extend_back a b ok alo blo besti bestj bestsize in
  alo ≤ x.1.1 ∧ blo ≤ x.1.2
  ∧ x.1.1 + x.2 = besti + bestsize ∧ x.1.2 + x.2 = bestj + bestsize.
Proof.
  revert bestj bestsize. induction besti as [|i' IH]; intros bestj bestsize Hi Hj.
  - simpl. lia.
  - destruct bestj as [|j']; [simpl; lia|]. simpl.
    destruct (_ && _) eqn:Hc; [|simpl; lia].
    apply andb_true_iff in Hc as [Hc _]. apply andb_true_iff in Hc as [Hc _].
    apply andb_true_iff in Hc as [Hc1 Hc2].
    apply Nat.ltb_lt in Hc1. apply Nat.ltb_lt in Hc2.
    specialize (IH j' (S bestsize)). simpl in IH. lia.
Qed.

Lemma extend_fwd_in ok ahi bhi besti bestj n bestsize :
  besti + bestsize ≤ ahi → bestj + bestsize ≤ bhi →
  let k := extend_fwd a b ok ahi bhi besti bestj n bestsize in
  bestsize ≤ k ∧ besti + k ≤ ahi ∧ bestj + k ≤ bhi.
Proof.
  revert bestsize. induction n as [|n IH]; intros bestsize Hi Hj; simpl; [lia|].
  destruct (_ && _) eqn:Hc; [|lia].
  apply andb_true_iff in Hc as [Hc _]. apply andb_true_iff in Hc as [Hc _].
  apply andb_true_iff in Hc as [Hc1 Hc2].
  apply Nat.ltb_lt in Hc1. apply Nat.ltb_lt in Hc2.
  specialize (IH (S bestsize)). simpl in IH. lia.
Qed.

Lemma extend_in ok alo ahi blo bhi x :
  block_in alo blo ahi bhi x →
  block_in alo blo ahi bhi (extend a b ok alo ahi blo bhi x).
Proof.
  intros (H1 & H2 & H3 & H4). unfold extend.
  pose proof (extend_back_in ok alo blo x.1.1 x.1.2 x.2 H1 H3) as Hb.
  destruct (extend_back a b ok alo blo x.1.1 x.1.2 x.2) as [[i j] k].
  simpl in Hb.
  pose proof (extend_fwd_in ok ahi bhi i j (ahi - (i + k)) k) as Hf.
  simpl in Hf. unfold block_in. simpl. lia.
Qed.

Lemma find_longest_match_in alo ahi blo bhi :
  alo ≤ ahi → blo ≤ bhi →
  block_in alo blo ahi bhi (find_longest_match a b b2j alo ahi blo bhi).
Proof.
  intros Ha Hb. unfold find_longest_match.
  by apply extend_in, extend_in, scan_in.
Qed.
End flm_bounds.

Section blocks.
Import Difflib.
Context (a b : list ascii) (b2j : gmap ascii (list nat)).

#[local] Arguments queue_weight : simpl never.
#[local] Arguments room_a : simpl never.
#[local] Arguments room_b : simpl never.
#[local] Arguments blocks_size : simpl never.

Lemma blocks_size_app l1 l2 :
  blocks_size (l1 ++ l2) = blocks_size l1 + blocks_size l2.
Proof. apply sum_list_with_app. Qed.

Lemma queue_weight_cons alo ahi blo bhi queue :
  queue_weight ((alo, ahi, blo, bhi) :: queue) = 2 * (ahi - alo) + 1 + queue_weight queue.
Proof. reflexivity. Qed.
Lemma room_a_cons alo ahi blo bhi queue :
  room_a ((alo, ahi, blo, bhi) :: queue) = ahi - alo + room_a queue.
Proof. reflexivity. Qed.
Lemma room_b_cons alo ahi blo bhi queue :
  room_b ((alo, ahi, blo, bhi) :: queue) = bhi - blo + room_b queue.
Proof. reflexivity. Qed.

Lemma push_region (cond : bool) alo ahi blo bhi queue :
  alo ≤ ahi → blo ≤ bhi → Forall region_ok queue →
  let queue' := if cond then (alo, ahi, blo, bhi) :: queue else queue in
  Forall region_ok queue'
  ∧ queue_weight queue' ≤ queue_weight queue + 2 * (ahi - alo) + 1
  ∧ room_a queue' ≤ room_a queue + (ahi - alo)
  ∧ room_b queue' ≤ room_b queue + (bhi - blo).
Proof.
  intros Ha Hb Hok queue'. subst queue'. destruct cond.
  - rewrite queue_weight_cons, room_a_cons, room_b_cons.
    split; [by constructor|lia].
  - split; [done|lia].
Qed.

Lemma mb_loop_total fuel queue matching_blocks :
  Forall region_ok queue →
  queue_weight queue ≤ fuel →
  ∃ blocks,
    mb_loop a b b2j fuel queue matching_blocks = Some blocks
    ∧ blocks_size blocks ≤ blocks_size matching_blocks + room_a queue
    ∧ blocks_size blocks ≤ blocks_size matching_blocks + room_b queue.
Proof.
  revert queue matching_blocks.
  induction fuel as [|fuel IH]; intros queue acc Hok Hw.
  - destruct queue as [|[[[alo ahi] blo] bhi] queue]; simpl.
    + exists acc. split; [done|lia].
    + rewrite queue_weight_cons in Hw. lia.
  - destruct queue as [|[[[alo ahi] blo] bhi] queue]; simpl.
    { exists acc. split; [done|lia]. }
    apply Forall_cons in Hok as [[Ha Hb] Hok]. simpl in Ha, Hb.
    pose proof (find_longest_match_in a b b2j alo ahi blo bhi Ha Hb) as Hin.
    destruct (find_longest_match a b b2j alo ahi blo bhi) as [[i j] k].
    destruct Hin as (H1 & H2 & H3 & H4). simpl in H1, H2, H3, H4.
    rewrite queue_weight_cons in Hw. rewrite room_a_cons, room_b_cons.
    destruct (k =? 0) eqn:Hk.
    + destruct (IH queue acc Hok) as (blocks & -> & Hsa & Hsb); [lia|].
      exists blocks. split; [done|lia].
    + apply Nat.eqb_neq in Hk.
      destruct (push_region ((alo <? i) && (blo <? j)) alo i blo j queue)
        as (Hok1 & Hw1 & Ha1 & Hb1); [lia..|done|].
      set (q1 := if (alo <? i) && (blo <? j) then _ else _) in *.
      destruct (push_region ((i + k <? ahi) && (j + k <? bhi)) (i + k) ahi (j + k) bhi q1)
        as (Hok2 & Hw2 & Ha2 & Hb2); [lia..|done|].
      set (q2 := if (i + k <? ahi) && (j + k <? bhi) then _ else _) in *.
      destruct (IH q2 (acc ++ [(i, j, k)]) Hok2) as (blocks & -> & Hsa & Hsb); [lia|].
      exists blocks. split; [done|].
      rewrite blocks_size_app in Hsa, Hsb.
      change (blocks_size [(i, j, k)]) with (k + 0) in Hsa, Hsb. lia.
Qed.
End blocks.

Section sort_collapse.
Import Difflib.
#[local] Arguments blocks_size : simpl never.

Lemma blocks_size_cons x blocks :
  blocks_size (x :: blocks) = x.2 + blocks_size blocks.
Proof. reflexivity. Qed.

Lemma collapse_size cur blocks non_adjacent :
  blocks_size (collapse cur blocks non_adjacent)
  = cur.2 + blocks_size blocks + blocks_size non_adjacent.
Proof.
  revert cur non_adjacent.
  induction blocks as [|[[i2 j2] k2] blocks IH]; intros [[i1 j1] k1] na; simpl.
  - destruct (k1 =? 0) eqn:Hk.
    + apply Nat.eqb_eq in Hk. change (blocks_size []) with 0. lia.
    + rewrite blocks_size_app. change (blocks_size []) with 0.
      change (blocks_size [(i1, j1, k1)]) with (k1 + 0). lia.
  - rewrite blocks_size_cons. simpl. destruct (_ && _); rewrite IH; simpl; [lia|].
    destruct (k1 =? 0) eqn:Hk.
    + apply Nat.eqb_eq in Hk. lia.
    + rewrite blocks_size_app. change (blocks_size [(i1, j1, k1)]) with (k1 + 0). lia.
Qed.

Lemma blocks_size_sort blocks :
  blocks_size (merge_sort block_le blocks) = blocks_size blocks.
Proof.
  unfold blocks_size. by rewrite merge_sort_Permutation.
Qed.

Lemma get_matching_blocks_total (a b : list ascii) :
  ∃ blocks,
    get_matching_blocks a b = Some blocks
    ∧ blocks_size blocks ≤ length a ∧ blocks_size blocks ≤ length b.
Proof.
  unfold get_matching_blocks.
  destruct (mb_loop_total a b (chain_b b) (2 * length a + 1)
              [(0, length a, 0, length b)] []) as (blocks & -> & Ha & Hb).
  - constructor; [split; simpl; lia|done].
  - rewrite queue_weight_cons. change (queue_weight []) with 0. lia.
  - eexists. split; [done|].
    rewrite blocks_size_app, collapse_size, blocks_size_sort.
    rewrite room_a_cons in Ha. rewrite room_b_cons in Hb.
    change (blocks_size []) with 0 in *. change (room_a []) with 0 in Ha.
    change (room_b []) with 0 in Hb.
    change (blocks_size [(length a, length b, 0)]) with 0. simpl. lia.
Qed.
End sort_collapse.

Section rounding.
Import Difflib.

Lemma round2_bounds x :
  (0 ≤ Qnum x)%Z → (Qnum x ≤ 100 * Zpos (Qden x))%Z →
  ∃ h, round2 x = (h # 100)%Q ∧ (0 ≤ h ≤ 10000)%Z.
Proof.
  intros H0 H100. unfold round2.
  set (n := (Qnum x * 100)%Z). set (d := Zpos (Qden x)).
  assert (0 < d)%Z as Hd by (subst d; lia).
  pose proof (Z.div_mod n d ltac:(lia)) as Hdm.
  pose proof (Z.mod_pos_bound n d Hd) as Hr.
  assert (0 ≤ n / d)%Z as Hf0 by (apply Z.div_pos; subst n; lia).
  assert (n / d ≤ 10000)%Z as Hf1.
  { apply Z.div_le_upper_bound; [done|]. subst n d. lia. }
  eexists. split; [reflexivity|].
  destruct (2 * (n mod d) <? d)%Z eqn:Hlt; [lia|].
  apply Z.ltb_ge in Hlt.
  assert (n / d ≠ 10000)%Z as Hne.
  { intros Heq. rewrite Heq in Hdm. subst n d. lia. }
  destruct (d <? 2 * (n mod d))%Z; [lia|]. destruct (Z.even (n / d)); lia.
Qed.

Lemma round2_exact x h :
  (Qnum x * 100 = h * Zpos (Qden x))%Z → round2 x = (h # 100)%Q.
Proof.
  intros Hx. unfold round2. rewrite Hx.
  rewrite Z.div_mul by done. rewrite Z.mod_mul by done. reflexivity.
Qed.

Lemma calculate_ratio_percent matches length :
  length ≠ 0 →
  Qnum (calculate_ratio matches length * 100) = (200 * Z.of_nat matches)%Z
  ∧ Zpos (Qden (calculate_ratio matches length * 100)) = Z.of_nat length.
Proof.
  intros Hlen. destruct length as [|t]; [done|].
  unfold calculate_ratio. simpl Nat.eqb. cbv iota.
  unfold Qdiv, Qmult, Qinv, inject_Z. simpl. split; lia.
Qed.

Lemma calculate_ratio_empty matches :
  (calculate_ratio matches 0 * 100)%Q = (100 # 1)%Q.
Proof. reflexivity. Qed.

Lemma similar_total a b :
  ∃ matches,
    let la := length (list_ascii_of_string (PyStr.lower a)) in
    let lb := length (list_ascii_of_string (PyStr.lower b)) in
    similar a b = Some (round2 (calculate_ratio matches (la + lb) * 100))
    ∧ matches ≤ la ∧ matches ≤ lb.
Proof.
  unfold similar, ratio.
  destruct (get_matching_blocks_total (list_ascii_of_string (PyStr.lower a))
              (list_ascii_of_string (PyStr.lower b))) as (blocks & -> & Ha & Hb).
  exists (blocks_size blocks). done.
Qed.

Lemma similar_range a b :
  ∃ h, similar a b = Some (h # 100)%Q ∧ (0 ≤ h ≤ 10000)%Z.
Proof.
  destruct (similar_total a b) as (matches & Hs & Ha & Hb).
  cbv zeta in Hs, Ha, Hb. rewrite Hs. clear Hs.
  set (la := length (list_ascii_of_string (PyStr.lower a))) in *.
  set (lb := length (list_ascii_of_string (PyStr.lower b))) in *.
  destruct (decide (la + lb = 0)) as [H0|H0].
  - rewrite H0, calculate_ratio_empty. exists 10000%Z. done.
  - destruct (calculate_ratio_percent matches (la + lb) H0) as [Hn Hd].
    destruct (round2_bounds (calculate_ratio matches (la + lb) * 100))
      as (h & -> & Hh); [lia..|]. by exists h.
Qed.
End rounding.
Section chain_b.
Import Difflib.

Lemma index_all_lookup b i (m : gmap ascii (list nat)) c :
  index_all i b m !! c =
    match positions c i b with
    | [] => m !! c
    | ps => Some (default [] (m !! c) ++ ps)
    end.
Proof.
  revert i m. induction b as [|x b IH]; intros i m; simpl; [done|].
  rewrite IH. destruct (decide (x = c)) as [->|Hx]; simpl.
  - rewrite lookup_insert_eq. simpl.
    destruct (positions c (S i) b); [done|]. by rewrite <- app_assoc.
  - by rewrite lookup_insert_ne.
Qed.

Lemma chain_b_lookup b c idxs :
  chain_b b !! c = Some idxs → idxs = positions c 0 b.
Proof.
  assert (index_all 0 b ∅ !! c = Some idxs → idxs = positions c 0 b) as Hall.
  { rewrite index_all_lookup, lookup_empty. simpl.
    destruct (positions c 0 b); [done|]. by intros [= <-]. }
  unfold chain_b. destruct (200 <=? length b); [|done].
  intros [H _]%map_lookup_filter_Some. auto.
Qed.

Lemma elem_of_positions c i b j :
  j ∈ positions c i b ↔ i ≤ j ∧ b !! (j - i) = Some c.
Proof.
  revert i. induction b as [|x b IH]; intros i; simpl.
  - rewrite elem_of_nil. naive_solver.
  - rewrite elem_of_app, IH. destruct (decide (j = i)) as [->|Hj].
    + rewrite Nat.sub_diag. simpl. destruct (decide (x = c)) as [->|Hx].
      * rewrite list_elem_of_singleton. naive_solver.
      * rewrite elem_of_nil. split; [intros [[]|[? _]]; lia|naive_solver].
    + destruct (decide (i ≤ j)) as [Hle|Hgt].
      * replace (j - i) with (S (j - S i)) by lia. simpl.
        destruct (decide (x = c)).
        -- rewrite list_elem_of_singleton. split; [intros [?|[? ?]]|intros [? ?]]; [done|split; [lia|done]|].
           right. split; [lia|done].
        -- rewrite elem_of_nil. split; [intros [[]|[? ?]]; split; [lia|done]|].
           intros [? ?]. right. split; [lia|done].
      * split; [|lia]. intros [H|[? _]]; [|lia].
        destruct (decide (x = c)); [apply list_elem_of_singleton in H; lia|].
        by apply elem_of_nil in H.
Qed.

Lemma positions_sorted c i b : StronglySorted lt (positions c i b).
Proof.
  revert i. induction b as [|x b IH]; intros i; simpl; [constructor|].
  destruct (decide (x = c)); simpl; [|done].
  constructor; [done|]. apply Forall_forall. intros j [Hj _]%elem_of_positions. lia.
Qed.
End chain_b.
Section diagonal.
Import Difflib.
Context (s : list ascii) (b2j : gmap ascii (list nat)).
Hypothesis b2j_sorted : ∀ c idxs, b2j !! c = Some idxs → StronglySorted lt idxs.
Hypothesis b2j_elem : ∀ c idxs j, b2j !! c = Some idxs → j ∈ idxs ↔ s !! j = Some c.

Lemma run_kept m :
  run b2j s m = if kept b2j s m then S (run_before b2j s m) else 0.
Proof. by destruct m. Qed.

Lemma scan_row_diag i c j2len idxs newj2len best :
  s !! i = Some c →
  is_Some (b2j !! c) →
  StronglySorted lt idxs →
  (∀ j, j ∈ idxs → s !! j = Some c) →
  (∀ j, j2lenget j2len j ≤ run_before b2j s (i `min` j)) →
  j2lenget j2len i = run_before b2j s i →
  best.1.1 = best.1.2 →
  (∀ m, m < i → run b2j s m ≤ best.2) →
  (i ∈ idxs ∨ run b2j s i ≤ best.2) →
  (∀ j k, newj2len !! j = Some k → k ≤ run b2j s (i `min` j)) →
  (i ∈ idxs ∨ newj2len !! i = Some (run b2j s i)) →
  let st := scan_row i 0 (length s) j2len idxs newj2len best in
  st.2.1.1 = st.2.1.2
  ∧ (∀ m, m < S i → run b2j s m ≤ st.2.2)
  ∧ (∀ j k, st.1 !! j = Some k → k ≤ run b2j s (i `min` j))
  ∧ st.1 !! i = Some (run b2j s i).
Proof.
  intros Hi Hc Hsorted Hall H1 H2. revert newj2len best Hsorted Hall.
  induction idxs as [|j idxs IH]; intros new best Hsorted Hall Hd H3 Hbi Hn1 Hn2; simpl.
  - destruct Hbi as [[]%elem_of_nil|Hbi]. destruct Hn2 as [[]%elem_of_nil|Hn2].
    split; [done|]. split; [|done].
    intros m Hm. destruct (decide (m = i)) as [->|]; [done|]. apply H3. lia.
  - apply StronglySorted_inv in Hsorted as [Hsorted Hhd].
    assert (s !! j = Some c) as Hj by (apply Hall; left).
    assert (j < length s) as Hjn by (by eapply lookup_lt_Some).
    destruct (length s <=? j) eqn:Hhi; [apply Nat.leb_le in Hhi; lia|].
    set (k := j2lenget j2len j + 1).
    assert (kept b2j s (i `min` j) = true) as Hkept.
    { unfold kept. destruct (Nat.min_spec i j) as [[_ ->]|[_ ->]].
      - rewrite Hi. by apply bool_decide_eq_true.
      - rewrite Hj. by apply bool_decide_eq_true. }
    assert (k ≤ run b2j s (i `min` j)) as Hk.
    { rewrite run_kept, Hkept. specialize (H1 j). subst k. lia. }
    assert (j = i → k = run b2j s i) as Hki.
    { intros ->. rewrite run_kept. rewrite Nat.min_id in Hkept. rewrite Hkept.
      subst k. lia. }
    assert (i ≠ j → k ≤ best.2) as Hoff.
    { intros Hne. destruct (decide (j < i)) as [Hlt|Hge].
      - rewrite Nat.min_r in Hk by lia. specialize (H3 j Hlt). lia.
      - rewrite Nat.min_l in Hk by lia. destruct Hbi as [Hin|Hbi]; [|lia].
        apply elem_of_cons in Hin as [->|Hin]; [done|].
        rewrite Forall_forall in Hhd. specialize (Hhd i Hin). lia. }
    apply IH; clear IH.
    + done.
    + intros j' Hj'. apply Hall. by right.
    + destruct (best.2 <? k) eqn:Hlt; [|done]. apply Nat.ltb_lt in Hlt.
      destruct (decide (i = j)) as [->|Hne]; [done|]. specialize (Hoff Hne). lia.
    + intros m Hm. specialize (H3 m Hm). destruct (best.2 <? k) eqn:Hlt; [|done].
      apply Nat.ltb_lt in Hlt. simpl. lia.
    + destruct (decide (j = i)) as [Hji|Hji].
      * right. specialize (Hki Hji). destruct (best.2 <? k) eqn:Hlt; simpl.
        -- lia.
        -- apply Nat.ltb_ge in Hlt. lia.
      * destruct Hbi as [Hin|Hbi].
        -- apply elem_of_cons in Hin as [->|Hin]; [done|by left].
        -- right. destruct (best.2 <? k) eqn:Hlt; [|done].
           apply Nat.ltb_lt in Hlt. simpl. lia.
    + intros j' k'. rewrite lookup_insert. case_decide as Hjj.
      * intros [= <-]. by subst j'.
      * apply Hn1.
    + destruct (decide (j = i)) as [Hji|Hji].
      * right. subst j. rewrite lookup_insert_eq. f_equal. by apply Hki.
      * destruct Hn2 as [Hin|Hn2].
        -- apply elem_of_cons in Hin as [->|Hin]; [done|by left].
        -- right. by rewrite lookup_insert_ne.
Qed.

Lemma run_before_min_S i j :
  run_before b2j s (S i `min` S j) = run b2j s (i `min` j).
Proof. by rewrite <- Nat.succ_min_distr. Qed.

Lemma scan_step_diag i st :
  i < length s →
  diag_inv b2j s i st →
  diag_inv b2j s (S i) (scan_step s b2j 0 (length s) st i).
Proof.
  intros Hi (Hd & H1 & H2 & H3). unfold scan_step.
  destruct (lookup_lt_is_Some_2 s i Hi) as [c Hc]. rewrite Hc.
  destruct (b2j !! c) as [idxs|] eqn:Hidxs; simpl.
  - assert (i ∈ idxs) as Hin by (by eapply b2j_elem).
    destruct (scan_row_diag i c st.1 idxs ∅ st.2) as (Hd' & H3' & Hn1 & Hn2).
    all: try done. all: try (by rewrite Hidxs). all: try (by eapply b2j_sorted).
    all: try (by left).
    { intros j Hj. by eapply b2j_elem. }
    split; [done|]. split; [|split; [|done]].
    + intros [|j]; simpl; [lia|].
      destruct (_ !! j) as [k|] eqn:Hk; simpl; [by eapply Hn1|lia].
    + simpl. by rewrite Hn2.
  - assert (run b2j s i = 0) as Hrun.
    { rewrite run_kept. unfold kept. rewrite Hc, Hidxs.
      rewrite bool_decide_eq_false_2; [done|]. by intros [? ?]. }
    split; [done|]. split; [|split].
    + intros [|j]; simpl; [lia|]. rewrite lookup_empty. simpl. lia.
    + simpl. by rewrite lookup_empty.
    + intros m Hm. destruct (decide (m = i)) as [->|]; [lia|]. apply H3. lia.
Qed.

Lemma scan_diag :
  ((scan s b2j 0 (length s) 0 (length s)).2).1.1
  = ((scan s b2j 0 (length s) 0 (length s)).2).1.2.
Proof.
  unfold scan. rewrite Nat.sub_0_r.
  assert (∀ n i st, i + n ≤ length s → diag_inv b2j s i st →
            diag_inv b2j s (i + n)
              (foldl (scan_step s b2j 0 (length s)) st (seq i n))) as Hloop.
  { induction n as [|n IH]; intros i st Hn Hst; simpl.
    - by rewrite Nat.add_0_r.
    - replace (i + S n) with (S i + n) by lia.
      apply IH; [lia|]. apply scan_step_diag; [lia|done]. }
  destruct (Hloop (length s) 0 (∅, (0, 0, 0))) as [Hd _]; [done| |done].
  split; [done|]. split; [|split].
  - intros [|j]; simpl; [done|]. by rewrite lookup_empty.
  - done.
  - lia.
Qed.
End diagonal.

Section identical.
Import Difflib.
Context (s : list ascii).
#[local] Arguments blocks_size : simpl never.

Lemma isbjunk_false c : isbjunk c = false.
Proof. unfold isbjunk, bjunk. by rewrite bool_decide_eq_false_2. Qed.

Lemma notjunk_true c : negb (isbjunk c) = true.
Proof. by rewrite isbjunk_false. Qed.

Lemma extend_back_diag ok d bestsize :
  (∀ c, ok c = true) → d ≤ length s →
  extend_back s s ok 0 0 d d bestsize = (0, 0, d + bestsize).
Proof.
  intros Hok. revert bestsize. induction d as [|d IH]; intros bestsize Hd; [done|].
  simpl. unfold elt_ok, same_elt.
  destruct (lookup_lt_is_Some_2 s d) as [c Hc]; [lia|]. rewrite Hc, Hok.
  rewrite bool_decide_eq_true_2 by done. simpl.
  rewrite IH by lia. f_equal. lia.
Qed.

Lemma extend_fwd_diag ok n bestsize :
  (∀ c, ok c = true) → bestsize + n = length s →
  extend_fwd s s ok (length s) (length s) 0 0 n bestsize = length s.
Proof.
  intros Hok. revert bestsize. induction n as [|n IH]; intros bestsize Hn; simpl; [lia|].
  unfold elt_ok, same_elt.
  destruct (lookup_lt_is_Some_2 s bestsize) as [c Hc]; [lia|]. rewrite Hc, Hok.
  rewrite bool_decide_eq_true_2 by done.
  destruct (bestsize <? length s) eqn:Hlt; [|apply Nat.ltb_ge in Hlt; lia].
  simpl. apply IH. lia.
Qed.

Lemma find_longest_match_same :
  find_longest_match s s (chain_b s) 0 (length s) 0 (length s) = (0, 0, length s).
Proof.
  unfold find_longest_match.
  assert (∀ c idxs, chain_b s !! c = Some idxs → StronglySorted lt idxs) as Hsorted.
  { intros c idxs Hc. apply chain_b_lookup in Hc as ->. apply positions_sorted. }
  assert (∀ c idxs j, chain_b s !! c = Some idxs → j ∈ idxs ↔ s !! j = Some c)
    as Helem.
  { intros c idxs j Hc. apply chain_b_lookup in Hc as ->.
    rewrite elem_of_positions, Nat.sub_0_r. split; [naive_solver|].
    split; [lia|done]. }
  pose proof (scan_diag s (chain_b s) Hsorted Helem) as Hd.
  pose proof (scan_in s (chain_b s) 0 (length s) 0 (length s)) as Hin.
  destruct (scan s (chain_b s) 0 (length s) 0 (length s)) as [j2len [[d d'] bs]].
  simpl in Hd. subst d'. cbn [snd].
  destruct Hin as (_ & Hin & _); [lia..|]. simpl in Hin.
  assert (extend s s (λ c, negb (isbjunk c)) 0 (length s) 0 (length s) (d, d, bs)
          = (0, 0, length s)) as ->.
  { unfold extend. simpl.
    rewrite extend_back_diag; [|exact notjunk_true|lia].
    rewrite extend_fwd_diag; [done|exact notjunk_true|lia]. }
  unfold extend. simpl. replace (length s - length s) with 0 by lia. done.
Qed.

Lemma mb_loop_nil b2j fuel matching_blocks :
  mb_loop s s b2j fuel [] matching_blocks = Some matching_blocks.
Proof. by destruct fuel. Qed.

Lemma get_matching_blocks_same :
  ∃ blocks, get_matching_blocks s s = Some blocks ∧ blocks_size blocks = length s.
Proof.
  destruct (decide (length s = 0)) as [H0|H0].
  - destruct (get_matching_blocks_total s s) as (blocks & Hb & Hs & _).
    exists blocks. split; [done|lia].
  - unfold get_matching_blocks.
    replace (2 * length s + 1) with (S (2 * length s)) by lia. simpl.
    rewrite find_longest_match_same.
    destruct (length s =? 0) eqn:Hz; [apply Nat.eqb_eq in Hz; lia|].
    rewrite Nat.ltb_irrefl. simpl. rewrite mb_loop_nil. simpl.
    eexists. split; [done|]. rewrite Hz.
    change (blocks_size _) with (length s + (0 + 0)). lia.
Qed.
End identical.

Lemma similar_same a b :
  PyStr.lower a = PyStr.lower b → similar a b = Some (10000 # 100)%Q.
Proof.
  intros Hab. unfold similar, Difflib.ratio. rewrite <- Hab.
  set (s := list_ascii_of_string (PyStr.lower a)).
  destruct (get_matching_blocks_same s) as (blocks & -> & Hsize). simpl.
  f_equal. change (sum_list_with snd blocks) with (blocks_size blocks).
  rewrite Hsize. destruct (decide (length s = 0)) as [H0|H0].
  - rewrite H0. reflexivity.
  - destruct (calculate_ratio_percent (length s) (length s + length s))
      as [Hn Hd]; [lia|].
    apply round2_exact. lia.
Qed.

Lemma similar_one_empty a b :
  a = "" ∨ b = "" → PyStr.lower a ≠ PyStr.lower b →
  similar a b = Some (0 # 100)%Q.
Proof.
  intros Hempty Hne.
  destruct (similar_total a b) as (matches & Hs & Ha & Hb).
  cbv zeta in Hs, Ha, Hb. rewrite Hs. clear Hs. f_equal.
  set (la := length (list_ascii_of_string (PyStr.lower a))) in *.
  set (lb := length (list_ascii_of_string (PyStr.lower b))) in *.
  assert (matches = 0 ∧ la + lb ≠ 0) as [-> Hlen].
  { destruct Hempty as [-> | ->]; subst la lb.
    - destruct b; [done|]. simpl in *. lia.
    - destruct a; [done|]. simpl in *. lia. }
  destruct (calculate_ratio_percent 0 (la + lb) Hlen) as [Hn Hd].
  apply round2_exact. lia.
Qed.

(** C7: the score of any two strings is a number of hundredths between 0 and
    100, and it is 100.00 when the first string is not empty and the two are
    equal after lower-casing. *)
Theorem C7_similar_range_and_identity a b :
  ∃ h : Z,
    similar a b = Some (h # 100)%Q
    ∧ (0 ≤ h ≤ 10000)%Z
    ∧ (0 <= h # 100)%Q ∧ (h # 100 <= 100)%Q
    ∧ (a ≠ "" → PyStr.lower a = PyStr.lower b → h = 10000%Z).
Proof.
  destruct (similar_range a b) as (h & Hs & Hh). exists h.
  split; [done|]. split; [done|].
  split; [unfold Qle; simpl; lia|]. split; [unfold Qle; simpl; lia|].
  intros _ Hab. rewrite (similar_same a b Hab) in Hs. by injection Hs.
Qed.

Lemma C7_similar_range_and_identity_witness :
  "File.PY" ≠ "" ∧ PyStr.lower "File.PY" = PyStr.lower "file.py"
  ∧ similar "File.PY" "file.py" = Some (10000 # 100)%Q.
Proof.
  split; [done|]. split; [reflexivity|].
  destruct (C7_similar_range_and_identity "File.PY" "file.py")
    as (h & Hs & _ & _ & _ & Hid).
  rewrite Hs, Hid; [reflexivity|done|reflexivity].
Defined.

(** C8, as the code has it: empty strings are accepted; two empty strings
    score 100.00, the maximal score, and an empty string against a string
    that is not empty scores 0.00. *)
Theorem C8_empty_strings :
  similar "" "" = Some (10000 # 100)%Q
  ∧ ∀ s, s ≠ "" →
      similar "" s = Some (0 # 100)%Q ∧ similar s "" = Some (0 # 100)%Q.
Proof.
  split; [by apply similar_same|]. intros s Hs.
  split; apply similar_one_empty; auto; destruct s; done.
Qed.

Lemma C8_empty_strings_witness :
  "a" ≠ "" ∧ similar "" "a" = Some (0 # 100)%Q ∧ similar "a" "" = Some (0 # 100)%Q.
Proof.
  split; [done|]. by apply (proj2 C8_empty_strings).
Defined.

Lemma C8_both_empty_maximal :
  similar "" "" = Some (10000 # 100)%Q ∧ (10000 # 100 == 100)%Q.
Proof. split; [vm_compute; reflexivity|reflexivity]. Qed.

(** ** Trimming and case folding *)

Section strip_lemmas.
Import PyStr.

Lemma lstrip_lstrip s : lstrip (lstrip s) = lstrip s.
Proof.
  induction s as [|c s IH]; simpl; [done|].
  destruct (isspace c) eqn:Hc; [done|]. simpl. by rewrite Hc.
Qed.

Lemma rstrip_rstrip s : rstrip (rstrip s) = rstrip s.
Proof.
  induction s as [|c s IH]; simpl; [done|].
  destruct (rstrip s) as [|c' r] eqn:Hr.
  - destruct (isspace c) eqn:Hc; simpl; [done|]. by rewrite Hc.
  - change (rstrip (String c (String c' r)))
      with (match rstrip (String c' r) with
            | EmptyString => if isspace c then EmptyString else String c EmptyString
            | r' => String c r'
            end).
    by rewrite IH.
Qed.

Lemma rstrip_lstrip s : rstrip (lstrip s) = lstrip (rstrip s).
Proof.
  induction s as [|c s IH]; simpl; [done|].
  destruct (isspace c) eqn:Hc.
  - rewrite IH. destruct (rstrip s) as [|c' r]; simpl; [done|]. by rewrite Hc.
  - simpl. destruct (rstrip s) as [|c' r]; simpl; by rewrite Hc.
Qed.

Lemma strip_strip s : strip (strip s) = strip s.
Proof.
  unfold strip. by rewrite rstrip_lstrip, rstrip_rstrip, lstrip_lstrip.
Qed.

Lemma clean_strip s : clean (strip s).
Proof.
  unfold clean, strip. split; [apply lstrip_lstrip|].
  by rewrite rstrip_lstrip, rstrip_rstrip.
Qed.

Lemma strip_clean s : clean s → strip s = s.
Proof. intros [Hl Hr]. unfold strip. by rewrite Hr. Qed.

Lemma clean_empty : clean "".
Proof. done. Qed.
End strip_lemmas.

Section string_lemmas.
Import PyStr.

Lemma isspace_lower_char c : isspace (lower_char c) = isspace c.
Proof. by destruct c as [[] [] [] [] [] [] [] []]. Qed.

Lemma lower_char_idemp c : lower_char (lower_char c) = lower_char c.
Proof. by destruct c as [[] [] [] [] [] [] [] []]. Qed.

Lemma lower_char_nl c : Ascii.eqb (lower_char c) "010" = Ascii.eqb c "010".
Proof. by destruct c as [[] [] [] [] [] [] [] []]. Qed.

Lemma lower_lower s : lower (lower s) = lower s.
Proof. induction s as [|c s IH]; simpl; [done|]. by rewrite lower_char_idemp, IH. Qed.

Lemma lower_app s1 s2 : lower (s1 +:+ s2) = lower s1 +:+ lower s2.
Proof.
  induction s1 as [|c s1 IH]; [done|].
  change (lower (String c s1 +:+ s2)) with (String (lower_char c) (lower (s1 +:+ s2))).
  by rewrite IH.
Qed.

Lemma lower_empty s : lower s = "" → s = "".
Proof. by destruct s. Qed.

Lemma lower_lstrip s : lower (lstrip s) = lstrip (lower s).
Proof.
  induction s as [|c s IH]; simpl; [done|]. rewrite isspace_lower_char.
  by destruct (isspace c).
Qed.

Lemma lower_rstrip s : lower (rstrip s) = rstrip (lower s).
Proof.
  induction s as [|c s IH]; simpl; [done|]. rewrite <- IH, isspace_lower_char.
  destruct (rstrip s); simpl; [|done]. by destruct (isspace c).
Qed.

Lemma lower_strip s : lower (strip s) = strip (lower s).
Proof. unfold strip. by rewrite lower_lstrip, lower_rstrip. Qed.

Lemma clean_lower s : clean s → clean (lower s).
Proof.
  intros [Hl Hr]. split.
  - by rewrite <- lower_lstrip, Hl.
  - by rewrite <- lower_rstrip, Hr.
Qed.

Lemma app_cons c s1 s2 : String c s1 +:+ s2 = String c (s1 +:+ s2).
Proof. reflexivity. Qed.

Lemma lstrip_app s1 s2 : lstrip s1 = s1 → s1 ≠ "" → lstrip (s1 +:+ s2) = s1 +:+ s2.
Proof.
  destruct s1 as [|c s1]; [done|]. rewrite app_cons. simpl. intros H _.
  destruct (isspace c) eqn:Hc; [|done].
  exfalso. assert (String.length (lstrip s1) ≤ String.length s1) as Hlen.
  { clear. induction s1 as [|c s1 IH]; simpl; [done|].
    destruct (isspace c); simpl; lia. }
  rewrite H in Hlen. simpl in Hlen. lia.
Qed.

Lemma app_empty s1 s2 : s1 +:+ s2 = "" → s1 = "" ∧ s2 = "".
Proof. destruct s1; [done|]. discriminate. Qed.

Lemma rstrip_app s1 s2 : rstrip s2 = s2 → s2 ≠ "" → rstrip (s1 +:+ s2) = s1 +:+ s2.
Proof.
  intros H2 Hne. induction s1 as [|c s1 IH]; [done|].
  rewrite app_cons. simpl. rewrite IH.
  destruct (s1 +:+ s2) eqn:Happ; [|done].
  apply app_empty in Happ as [_ ?]. done.
Qed.

Lemma clean_join l :
  l ≠ [] → Forall (λ e, clean e ∧ e ≠ "") l →
  clean (join nl l) ∧ join nl l ≠ "".
Proof.
  intros Hne Hall. induction Hall as [|e l [[Hl Hr] He] Hall IH]; [done|].
  destruct l as [|e' l]; [done|].
  destruct IH as [[IHl IHr] IHne]; [done|].
  change (join nl (e :: e' :: l)) with (e +:+ nl +:+ join nl (e' :: l)).
  split; [split|].
  - by apply lstrip_app.
  - rewrite rstrip_app; [done| |].
    + by rewrite rstrip_app.
    + intros [? _]%app_empty. done.
  - intros [? _]%app_empty. done.
Qed.

Lemma split_first_app_None c s1 s2 :
  split_first c s1 = None →
  split_first c (s1 +:+ s2) =
    match split_first c s2 with
    | Some (k, v) => Some (s1 +:+ k, v)
    | None => None
    end.
Proof.
  induction s1 as [|x s1 IH].
  - intros _. change ("" +:+ s2) with s2.
    by destruct (split_first c s2) as [[k v]|].
  - rewrite app_cons. simpl. destruct (Ascii.eqb x c); [done|].
    destruct (split_first c s1) as [[k v]|] eqn:H1; [done|]. intros _.
    rewrite IH by done.
    by destruct (split_first c s2) as [[k v]|].
Qed.

Lemma app_empty_r s : s +:+ "" = s.
Proof. induction s as [|c s IH]; [done|]. rewrite app_cons. by f_equal. Qed.

Lemma first_line_join e l : one_line e → first_line (join nl (e :: l)) = e.
Proof.
  intros He. unfold first_line. destruct l as [|e' l].
  - simpl. unfold one_line in He. by rewrite He.
  - change (join nl (e :: e' :: l)) with (e +:+ nl +:+ join nl (e' :: l)).
    rewrite split_first_app_None by done. simpl. apply app_empty_r.
Qed.

Lemma split_first_lower s :
  split_first "010" (lower s) =
    (λ kv : string * string, (lower kv.1, lower kv.2)) <$> split_first "010" s.
Proof.
  induction s as [|c s IH]; simpl; [done|]. rewrite lower_char_nl.
  destruct (Ascii.eqb c "010"); [done|]. rewrite IH.
  by destruct (split_first "010" s) as [[k v]|].
Qed.

Lemma first_line_lower s : first_line (lower s) = lower (first_line s).
Proof.
  unfold first_line. rewrite split_first_lower.
  by destruct (split_first "010" s) as [[k v]|].
Qed.

Lemma one_line_lower s : one_line s → one_line (lower s).
Proof. unfold one_line. rewrite split_first_lower. by intros ->. Qed.

Lemma first_line_one_line s : one_line s → first_line s = s.
Proof. unfold one_line, first_line. by intros ->. Qed.

(** [sorted(set(values))] depends on the set of the values only. *)
Lemma sorted_set_perm l1 l2 :
  (∀ x, x ∈ l1 ↔ x ∈ l2) → sorted_set l1 = sorted_set l2.
Proof.
  intros H. unfold sorted_set. do 2 f_equal. apply set_eq. intros x.
  by rewrite !elem_of_list_to_set.
Qed.

Lemma elem_of_sorted_set x l : x ∈ sorted_set l ↔ x ∈ l.
Proof.
  unfold sorted_set. rewrite merge_sort_Permutation, elem_of_elements.
  apply elem_of_list_to_set.
Qed.

Lemma sorted_set_singleton x l :
  l ≠ [] → (∀ y, y ∈ l → y = x) → sorted_set l = [x].
Proof.
  intros Hne Hall. unfold sorted_set.
  assert ((list_to_set l : gset string) = {[x]}) as ->.
  { apply set_eq. intros y. rewrite elem_of_list_to_set, elem_of_singleton.
    split; [apply Hall|]. intros ->. destruct l as [|z l]; [done|].
    rewrite (Hall z); [left|left]. }
  by rewrite elements_singleton.
Qed.

Lemma sorted_set_nonempty l : l ≠ [] → sorted_set l ≠ [].
Proof.
  intros Hne Hs. destruct l as [|x l]; [done|].
  assert (x ∈ sorted_set (x :: l)) as Hx by (apply elem_of_sorted_set; left).
  rewrite Hs in Hx. by apply elem_of_nil in Hx.
Qed.
End string_lemmas.

(** ** The ledger normalizer (lines 38-55) *)

Lemma merged_row_lookup g data col :
  merged_row g data !! col =
    match data !! col with
    | Some values => Some (PyStr.join PyStr.nl (PyStr.sorted_set values))
    | None => if decide (col = "Filename") then Some g else None
    end.
Proof.
  unfold merged_row. revert col.
  apply (map_fold_weak_ind (λ (r : gmap string string) (m : gmap string (list string)),
           ∀ col, r !! col = match m !! col with
                             | Some values =>
                                 Some (PyStr.join PyStr.nl (PyStr.sorted_set values))
                             | None => if decide (col = "Filename") then Some g else None
                             end)).
  - intros col. rewrite lookup_empty. case_decide as Hc.
    + subst col. by rewrite lookup_singleton_eq.
    + by rewrite lookup_singleton_ne.
  - intros i x m r Hi IH col. rewrite !lookup_insert. case_decide; [done|apply IH].
Qed.

Lemma merged_row_Filename fname data : is_Some (merged_row fname data !! "Filename").
Proof.
  rewrite merged_row_lookup. destruct (data !! "Filename"); [by eexists|].
  rewrite decide_True by done. by eexists.
Qed.

Section grouping.

Lemma group_rows_keyed df :
  group_rows df = foldl (λ G kr, group_add kr.1 kr.2 G) [] (keyed df).
Proof.
  unfold group_rows, keyed. generalize (iterrows df) as l.
  generalize ([] : list (string * gmap string (list string))) as G.
  intros G l. revert G. induction l as [|row l IH]; intros G; simpl; [done|].
  rewrite filter_cons. destruct (decide (cells row = ∅)) as [He|He].
  - rewrite decide_False by (by intros ?). apply IH.
  - rewrite decide_True by done. simpl. apply IH.
Qed.

Lemma first_keys_snoc ks k :
  first_keys (ks ++ [k]) =
    if decide (k ∈ first_keys ks) then first_keys ks else first_keys ks ++ [k].
Proof. unfold first_keys. by rewrite foldl_snoc. Qed.

Lemma first_keys_spec ks :
  NoDup (first_keys ks) ∧ ∀ x, x ∈ first_keys ks ↔ x ∈ ks.
Proof.
  induction ks as [|k ks [IHn IHe]] using rev_ind.
  - split; [constructor|done].
  - rewrite first_keys_snoc. case_decide as Hk.
    + split; [done|]. intros x. rewrite elem_of_app, list_elem_of_singleton, IHe.
      split; [by left|]. intros [? | ->]; [done|]. by apply IHe.
    + split.
      * apply NoDup_app. split; [done|]. split; [|apply NoDup_singleton].
        intros x Hx Hx'. apply list_elem_of_singleton in Hx' as ->. done.
      * intros x. rewrite !elem_of_app, IHe. done.
Qed.

Lemma group_add_map f r (K : list string) (D : string → gmap string (list string)) :
  NoDup K →
  group_add f r ((λ g, (g, D g)) <$> K) =
    if decide (f ∈ K)
    then (λ g, (g, if decide (g = f) then append_cells (D g) r else D g)) <$> K
    else ((λ g, (g, D g)) <$> K) ++ [(f, append_cells ∅ r)].
Proof.
  induction 1 as [|g K Hg Hnd IH].
  - done.
  - rewrite fmap_cons. cbn [group_add]. destruct (decide (g = f)) as [->|Hgf].
    + rewrite decide_True by (apply elem_of_cons; by left).
      rewrite fmap_cons. rewrite decide_True by done. f_equal.
      apply list_fmap_ext. intros i g Hi.
      rewrite decide_False; [done|]. intros ->.
      apply Hg. by eapply list_elem_of_lookup_2.
    + rewrite IH. destruct (decide (f ∈ K)) as [Hin|Hin].
      * rewrite decide_True by (apply elem_of_cons; by right). rewrite fmap_cons.
        by rewrite decide_False.
      * rewrite decide_False; [done|]. intros [?|?]%elem_of_cons; done.
Qed.

Lemma group_data_snoc g R f r :
  group_data g (R ++ [(f, r)]) =
    if decide (g = f) then append_cells (group_data g R) r else group_data g R.
Proof.
  unfold group_data. rewrite filter_app, filter_cons, filter_nil. simpl.
  destruct (decide (f = g)) as [->|Hfg].
  - rewrite decide_True by done. by rewrite fmap_app, foldl_app.
  - rewrite decide_False by done. by rewrite app_nil_r.
Qed.

Lemma group_data_fresh g R : g ∉ R.*1 → group_data g R = ∅.
Proof.
  intros Hg. unfold group_data.
  assert (filter (λ kr : string * gmap string string, kr.1 = g) R = []) as ->; [|done].
  induction R as [|[k r] R IH]; [done|]. rewrite filter_cons. simpl.
  rewrite decide_False.
  - apply IH. intros ?. apply Hg. by right.
  - intros ->. apply Hg. left.
Qed.

Lemma group_fold R :
  foldl (λ G kr, group_add kr.1 kr.2 G) [] R
  = (λ g, (g, group_data g R)) <$> first_keys R.*1.
Proof.
  induction R as [|[f r] R IH] using rev_ind; [done|].
  rewrite foldl_snoc, IH, fmap_app. change ([(f, r)].*1) with [f].
  rewrite first_keys_snoc. cbn [fst snd].
  destruct (first_keys_spec R.*1) as [Hnd He].
  rewrite group_add_map by done.
  destruct (decide (f ∈ first_keys R.*1)) as [Hin|Hin].
  - apply list_fmap_ext. intros i g _. by rewrite group_data_snoc.
  - rewrite fmap_app. simpl. f_equal.
    + apply list_fmap_ext. intros i g Hi. rewrite group_data_snoc.
      rewrite decide_False; [done|]. intros ->.
      apply Hin. by eapply list_elem_of_lookup_2.
    + rewrite group_data_snoc, decide_True by done.
      rewrite group_data_fresh; [done|]. by rewrite <- He.
Qed.

Lemma merged_groups_keyed df :
  merged_groups df =
    (λ g, (g, merged_row g (group_data g (keyed df)))) <$> first_keys (keyed df).*1.
Proof.
  unfold merged_groups. rewrite group_rows_keyed, group_fold, <- list_fmap_compose.
  done.
Qed.

Lemma append_cells_lookup data row col :
  append_cells data row !! col =
    match row !! col with
    | Some val => Some (default [] (data !! col) ++ [PyStr.strip val])
    | None => data !! col
    end.
Proof.
  unfold append_cells. revert col.
  apply (map_fold_weak_ind (λ (r : gmap string (list string)) (m : gmap string string),
           ∀ col, r !! col = match m !! col with
                             | Some val =>
                                 Some (default [] (data !! col) ++ [PyStr.strip val])
                             | None => data !! col
                             end)).
  - intros col. by rewrite lookup_empty.
  - intros i x m r Hi IH col. rewrite !lookup_insert. case_decide; [|apply IH].
    subst col. by rewrite IH, Hi.
Qed.

Lemma foldl_append_cells_lookup l data col :
  foldl append_cells data l !! col =
    match col_values col l with
    | [] => data !! col
    | vs => Some (default [] (data !! col) ++ vs)
    end.
Proof.
  revert data. induction l as [|r l IH]; intros data; simpl; [done|].
  rewrite IH, append_cells_lookup. unfold col_values at 2. simpl.
  fold (col_values col l).
  destruct (r !! col) as [v|]; simpl; [|done].
  destruct (col_values col l); [done|]. by rewrite <- app_assoc.
Qed.

Lemma group_data_lookup g R col :
  group_data g R !! col =
    match col_values col (filter (λ kr, kr.1 = g) R).*2 with
    | [] => None
    | vs => Some vs
    end.
Proof.
  unfold group_data. rewrite foldl_append_cells_lookup, lookup_empty. done.
Qed.

End grouping.

Section commutative.

Lemma col_values_perm col l1 l2 : l1 ≡ₚ l2 → col_values col l1 ≡ₚ col_values col l2.
Proof. intros H. unfold col_values. by rewrite H. Qed.

Lemma group_data_perm g R R' col :
  R ≡ₚ R' →
  PyStr.join PyStr.nl ∘ PyStr.sorted_set <$> group_data g R !! col
  = PyStr.join PyStr.nl ∘ PyStr.sorted_set <$> group_data g R' !! col.
Proof.
  intros HR. rewrite !group_data_lookup.
  assert (col_values col (filter (λ kr, kr.1 = g) R).*2
          ≡ₚ col_values col (filter (λ kr, kr.1 = g) R').*2) as Hp.
  { apply col_values_perm. by rewrite HR. }
  destruct (col_values col (filter _ R).*2) as [|v vs] eqn:H1.
  - apply Permutation_nil_l in Hp. by first [rewrite Hp | rewrite <- Hp].
  - destruct (col_values col (filter _ R').*2) as [|v' vs'] eqn:H2.
    + by apply Permutation_nil_r in Hp.
    + simpl. do 2 f_equal. apply sorted_set_perm. intros x. by rewrite Hp.
Qed.

Lemma merged_row_perm g R R' :
  R ≡ₚ R' → merged_row g (group_data g R) = merged_row g (group_data g R').
Proof.
  intros HR. apply map_eq. intros col. rewrite !merged_row_lookup.
  pose proof (group_data_perm g R R' col HR) as H.
  destruct (group_data g R !! col), (group_data g R' !! col); simpl in H; congruence.
Qed.

Lemma keyed_perm df df' :
  columns df = columns df' → rows df ≡ₚ rows df' → keyed df ≡ₚ keyed df'.
Proof.
  intros Hc Hr. unfold keyed, iterrows. by rewrite Hc, Hr.
Qed.

Lemma merged_groups_perm df df' :
  columns df = columns df' → rows df ≡ₚ rows df' →
  merged_groups df ≡ₚ merged_groups df'.
Proof.
  intros Hc Hr. pose proof (keyed_perm df df' Hc Hr) as HR.
  rewrite !merged_groups_keyed.
  destruct (first_keys_spec (keyed df).*1) as [Hn1 He1].
  destruct (first_keys_spec (keyed df').*1) as [Hn2 He2].
  assert (first_keys (keyed df).*1 ≡ₚ first_keys (keyed df').*1) as HK.
  { apply NoDup_Permutation; [done..|]. intros x. rewrite He1, He2. by rewrite HR. }
  rewrite <- HK.
  assert ((λ g, (g, merged_row g (group_data g (keyed df))))
            <$> first_keys (keyed df).*1
          = (λ g, (g, merged_row g (group_data g (keyed df'))))
            <$> first_keys (keyed df).*1) as ->; [|done].
  apply list_fmap_ext. intros i g _.
  by rewrite (merged_row_perm g _ _ HR).
Qed.
End commutative.

Section idempotent.
Context (df : DataFrame).
Hypothesis Hframe : frame_ok df.
Hypothesis Hblank : no_blank_cell df.
Hypothesis Hline : one_line_filenames df.

Lemma elem_of_col_values x col (l : list (gmap string string)) :
  x ∈ col_values col l ↔ ∃ r v, r ∈ l ∧ r !! col = Some v ∧ x = PyStr.strip v.
Proof.
  unfold col_values. rewrite list_elem_of_omap. split.
  - intros (r & Hr & Hx). destruct (r !! col) as [v|] eqn:Hv; [|done].
    injection Hx as <-. by exists r, v.
  - intros (r & v & Hr & Hv & ->). exists r. by rewrite Hv.
Qed.

Lemma elem_of_group g r :
  r ∈ (filter (λ kr : string * gmap string string, kr.1 = g) (keyed df)).*2 →
  r ∈ rows df ∧ r ≠ ∅
  ∧ group_key {| index := columns df; cells := r |} = g.
Proof.
  intros ([k r'] & -> & [Hk Hin]%list_elem_of_filter)%list_elem_of_fmap.
  simpl in Hk. subst k. unfold keyed in Hin.
  apply list_elem_of_fmap in Hin as (row & [= Hg ->] & [Hne Hrow]%list_elem_of_filter).
  unfold iterrows in Hrow. apply list_elem_of_fmap in Hrow as (r & -> & Hr).
  simpl in *. done.
Qed.

Lemma group_nonempty g :
  g ∈ first_keys (keyed df).*1 →
  ∃ r, r ∈ (filter (λ kr : string * gmap string string, kr.1 = g) (keyed df)).*2.
Proof.
  intros Hg. destruct (first_keys_spec (keyed df).*1) as [_ He]. apply He in Hg.
  apply list_elem_of_fmap in Hg as ([k r] & -> & Hin). exists r.
  apply list_elem_of_fmap. exists (k, r). split; [done|].
  by apply list_elem_of_filter.
Qed.

Lemma group_key_cell g r v :
  r ∈ rows df → group_key {| index := columns df; cells := r |} = g →
  r !! "Filename" = Some v → PyStr.lower (PyStr.strip v) = g.
Proof.
  intros Hr Hg Hv. rewrite <- Hg. unfold group_key, str_get. simpl.
  rewrite bool_decide_eq_true_2, Hv; [done|].
  unfold frame_ok in Hframe. rewrite Forall_forall in Hframe.
  apply (Hframe r Hr). apply elem_of_dom. by eexists.
Qed.

Lemma group_key_nan g r :
  group_key {| index := columns df; cells := r |} = g →
  r !! "Filename" = None → g = "nan" ∨ g = "".
Proof.
  intros <- Hv. unfold group_key, str_get. simpl. rewrite Hv.
  case_bool_decide; [by left|by right].
Qed.

(** The merged row of a group: all its values are trimmed already. *)
Lemma merged_row_clean g col v :
  g ∈ first_keys (keyed df).*1 →
  merged_row g (group_data g (keyed df)) !! col = Some v → clean v.
Proof.
  intros Hg. rewrite merged_row_lookup, group_data_lookup.
  set (Rg := (filter (λ kr : string * gmap string string, kr.1 = g) (keyed df)).*2).
  destruct (col_values col Rg) as [|x vs] eqn:Hvs.
  - case_decide; [|done]. intros [= <-].
    destruct (group_nonempty g Hg) as [r Hr]. fold Rg in Hr.
    destruct (elem_of_group g r Hr) as (_ & _ & Hkey).
    rewrite <- Hkey. apply clean_lower, clean_strip.
  - intros [= <-]. rewrite <- Hvs.
    assert (∀ y, y ∈ col_values col Rg →
              clean y ∧ (col ≠ "Filename" → y ≠ "")
              ∧ (col = "Filename" → PyStr.lower y = g)) as Hall.
    { intros y (r & v & Hr & Hv & ->)%elem_of_col_values.
      destruct (elem_of_group g r Hr) as (Hrow & _ & Hkey).
      split; [apply clean_strip|]. split.
      - intros Hcol. unfold no_blank_cell in Hblank. rewrite Forall_forall in Hblank.
        by apply (Hblank r Hrow col v Hv).
      - intros ->. rewrite lower_strip, <- lower_strip. by eapply group_key_cell. }
    assert (col_values col Rg ≠ []) as Hne by (by rewrite Hvs).
    destruct (decide (col = "Filename" ∧ g = "")) as [[-> ->]|Hcase].
    + rewrite (sorted_set_singleton ""); [done..|].
      intros y Hy. apply Hall in Hy as (_ & _ & Hy). by apply lower_empty, Hy.
    + apply clean_join; [by apply sorted_set_nonempty|].
      apply Forall_forall. intros y Hy.
      apply (proj1 (elem_of_sorted_set _ _)) in Hy.
      apply Hall in Hy as (Hc & Hn1 & Hn2). split; [done|].
      destruct (decide (col = "Filename")) as [->|Hcol]; [|by apply Hn1].
      intros ->. apply Hcase. split; [done|]. by rewrite <- Hn2.
Qed.

(** The [Filename] of the merged row of a group leads back to the group. *)
Lemma merged_row_first_line g :
  g ∈ first_keys (keyed df).*1 →
  ∃ F, merged_row g (group_data g (keyed df)) !! "Filename" = Some F
       ∧ first_line (PyStr.lower F) = g.
Proof.
  intros Hg. rewrite merged_row_lookup, group_data_lookup.
  set (Rg := (filter (λ kr : string * gmap string string, kr.1 = g) (keyed df)).*2).
  destruct (col_values "Filename" Rg) as [|x vs] eqn:Hvs.
  - rewrite decide_True by done. eexists. split; [done|].
    destruct (group_nonempty g Hg) as [r Hr]. fold Rg in Hr.
    destruct (elem_of_group g r Hr) as (_ & _ & Hkey).
    assert (r !! "Filename" = None) as Hnone.
    { destruct (r !! "Filename") as [v|] eqn:Hv; [|done].
      assert (PyStr.strip v ∈ col_values "Filename" Rg) as Hin.
      { apply elem_of_col_values. by exists r, v. }
      rewrite Hvs in Hin. by apply elem_of_nil in Hin. }
    destruct (group_key_nan g r Hkey Hnone) as [-> | ->]; done.
  - rewrite <- Hvs. eexists. split; [done|].
    assert (col_values "Filename" Rg ≠ []) as Hne by (by rewrite Hvs).
    apply sorted_set_nonempty in Hne.
    destruct (PyStr.sorted_set (col_values "Filename" Rg)) as [|e es] eqn:Hes; [done|].
    assert (e ∈ col_values "Filename" Rg) as He.
    { apply (proj1 (elem_of_sorted_set _ _)). rewrite Hes.
      apply elem_of_cons. by left. }
    apply elem_of_col_values in He as (r & v & Hr & Hv & ->).
    destruct (elem_of_group g r Hr) as (Hrow & _ & Hkey).
    rewrite first_line_lower, first_line_join.
    + by eapply group_key_cell.
    + unfold one_line_filenames in Hline. rewrite Forall_forall in Hline.
      by apply (Hline r Hrow "Filename" v Hv).
Qed.
End idempotent.

Section second_pass.

Lemma filter_all {A} (P : A → Prop) `{∀ x, Decision (P x)} (l : list A) :
  Forall P l → filter P l = l.
Proof.
  induction 1 as [|x l Hx _ IH]; [done|]. rewrite filter_cons_True by done.
  by rewrite IH.
Qed.

Lemma group_add_fresh f r (G : list (string * gmap string (list string))) :
  f ∉ G.*1 → group_add f r G = G ++ [(f, append_cells ∅ r)].
Proof.
  induction G as [|[g data] G IH]; intros Hf; [done|].
  cbn [group_add]. rewrite decide_False.
  - rewrite IH; [done|]. intros ?. apply Hf. rewrite fmap_cons. by right.
  - intros ->. apply Hf. rewrite fmap_cons. by left.
Qed.

Lemma group_fold_nodup (R : list (string * gmap string string)) :
  NoDup R.*1 →
  foldl (λ G kr, group_add kr.1 kr.2 G) [] R
  = (λ kr, (kr.1, append_cells ∅ kr.2)) <$> R.
Proof.
  induction R as [|[f r] R IH] using rev_ind; intros Hnd; [done|].
  rewrite fmap_app in Hnd. apply NoDup_app in Hnd as (Hnd & Hfresh & _).
  rewrite foldl_snoc, IH by done. cbn [fst snd].
  rewrite group_add_fresh.
  - by rewrite fmap_app.
  - rewrite <- list_fmap_compose. intros Hin.
    apply (Hfresh f); [|apply list_elem_of_singleton; done].
    apply list_elem_of_fmap in Hin as (kr & -> & Hkr).
    apply list_elem_of_fmap. by exists kr.
Qed.

Lemma merged_row_again k (M : gmap string string) :
  is_Some (M !! "Filename") →
  (∀ col v, M !! col = Some v → clean v) →
  merged_row k (append_cells ∅ M) = M.
Proof.
  intros [F HF] Hclean. apply map_eq. intros col.
  rewrite merged_row_lookup, append_cells_lookup, lookup_empty.
  destruct (M !! col) as [v|] eqn:Hv; simpl.
  - rewrite (sorted_set_singleton (PyStr.strip v)); [|done|].
    + simpl. f_equal. by apply strip_clean, (Hclean col).
    + by intros y ->%list_elem_of_singleton.
  - rewrite decide_False; [done|]. intros ->. congruence.
Qed.
End second_pass.

Section idempotent_merge.
Context (df : DataFrame).
Hypothesis Hframe : frame_ok df.
Hypothesis Hblank : no_blank_cell df.
Hypothesis Hline : one_line_filenames df.

Lemma rows_merge_excel_rows :
  rows (merge_excel_rows df)
  = (λ g, merged_row g (group_data g (keyed df))) <$> first_keys (keyed df).*1.
Proof.
  unfold merge_excel_rows. simpl.
  by rewrite merged_groups_keyed, <- list_fmap_compose.
Qed.

Lemma columns_merge_excel_rows g :
  g ∈ first_keys (keyed df).*1 → "Filename" ∈ columns (merge_excel_rows df).
Proof.
  intros Hg. unfold merge_excel_rows, DataFrame_of. simpl.
  apply elem_of_union_list.
  exists (dom (merged_row g (group_data g (keyed df)))). split.
  - apply list_elem_of_fmap. eexists. split; [done|].
    rewrite merged_groups_keyed, <- list_fmap_compose.
    apply list_elem_of_fmap. by exists g.
  - apply elem_of_dom, merged_row_Filename.
Qed.

Lemma keyed_merge_excel_rows :
  keyed (merge_excel_rows df)
  = (λ g, let M := merged_row g (group_data g (keyed df)) in
          (PyStr.lower (PyStr.strip (str_cell (M !! "Filename"))), M))
      <$> first_keys (keyed df).*1.
Proof.
  unfold keyed, iterrows. rewrite rows_merge_excel_rows.
  rewrite <- list_fmap_compose.
  rewrite filter_all.
  - rewrite <- list_fmap_compose. apply list_fmap_ext. intros i g Hi. simpl.
    f_equal. unfold group_key, str_get. simpl.
    rewrite bool_decide_eq_true_2; [done|].
    eapply columns_merge_excel_rows. by eapply list_elem_of_lookup_2.
  - apply Forall_fmap, Forall_forall. intros g _. simpl. intros He.
    destruct (merged_row_Filename g (group_data g (keyed df))) as [F HF].
    rewrite He in HF. by rewrite lookup_empty in HF.
Qed.

Lemma keyed_merge_excel_rows_nodup : NoDup (keyed (merge_excel_rows df)).*1.
Proof.
  rewrite keyed_merge_excel_rows, <- list_fmap_compose.
  destruct (first_keys_spec (keyed df).*1) as [Hnd _].
  apply NoDup_fmap_2_strong; [|done].
  intros g g' Hg Hg' Heq. simpl in Heq.
  destruct (merged_row_first_line df Hframe Hline g Hg) as (F & HF & Hfirst).
  destruct (merged_row_first_line df Hframe Hline g' Hg') as (F' & HF' & Hfirst').
  rewrite HF, HF' in Heq. simpl in Heq.
  pose proof (merged_row_clean df Hframe Hblank g "Filename" F Hg HF) as Hc.
  pose proof (merged_row_clean df Hframe Hblank g' "Filename" F' Hg' HF') as Hc'.
  rewrite !strip_clean in Heq by done. congruence.
Qed.

Lemma merge_excel_rows_idempotent :
  merge_excel_rows (merge_excel_rows df) = merge_excel_rows df.
Proof.
  unfold merge_excel_rows at 1. unfold merged_groups.
  rewrite group_rows_keyed, group_fold_nodup by apply keyed_merge_excel_rows_nodup.
  rewrite keyed_merge_excel_rows, <- !list_fmap_compose.
  unfold merge_excel_rows. f_equal.
  rewrite merged_groups_keyed, <- list_fmap_compose.
  apply list_fmap_ext. intros i g Hi. simpl.
  apply merged_row_again; [apply merged_row_Filename|].
  intros col v. apply (merged_row_clean df Hframe Hblank).
  by eapply list_elem_of_lookup_2.
Qed.
End idempotent_merge.

Lemma columns_merge_perm df df' :
  merged_groups df ≡ₚ merged_groups df' →
  columns (merge_excel_rows df) = columns (merge_excel_rows df').
Proof.
  intros Hp. unfold merge_excel_rows, DataFrame_of. simpl.
  apply set_eq. intros x. rewrite !elem_of_union_list.
  split; intros (X & HX & Hx); exists X; (split; [|done]).
  - by rewrite <- Hp.
  - by rewrite Hp.
Qed.

(** C6, as the code has it: the merge does not depend on the order of the
    rows: for a permutation of the rows the groups and their merged rows are
    the same, and so are the rows and the labels of the merged frame, up to
    the order of the rows. Merging a merged frame again gives the same frame
    when no cell outside the Filename column is blank and no filename has a
    line feed inside ([frame_ok] is what every pandas frame has: the cells
    of a row sit under labels of the frame). *)
Theorem C6_merge_commutative_idempotent :
  (∀ df df',
     columns df = columns df' → rows df ≡ₚ rows df' →
     merged_groups df ≡ₚ merged_groups df'
     ∧ rows (merge_excel_rows df) ≡ₚ rows (merge_excel_rows df')
     ∧ columns (merge_excel_rows df) = columns (merge_excel_rows df'))
  ∧ (∀ df,
       frame_ok df → no_blank_cell df → one_line_filenames df →
       merge_excel_rows (merge_excel_rows df) = merge_excel_rows df).
Proof.
  split.
  - intros df df' Hc Hr. pose proof (merged_groups_perm df df' Hc Hr) as Hp.
    split; [done|]. split; [|by apply columns_merge_perm].
    unfold merge_excel_rows. simpl. by rewrite Hp.
  - intros df. apply merge_excel_rows_idempotent.
Qed.

Lemma C6_merge_commutative_idempotent_witness :
  columns ledger_variants = columns ledger_variants_swapped
  ∧ rows ledger_variants ≡ₚ rows ledger_variants_swapped
  ∧ frame_ok ledger_variants ∧ no_blank_cell ledger_variants
  ∧ one_line_filenames ledger_variants
  ∧ rows (merge_excel_rows ledger_variants)
      ≡ₚ rows (merge_excel_rows ledger_variants_swapped)
  ∧ merge_excel_rows (merge_excel_rows ledger_variants)
      = merge_excel_rows ledger_variants.
Proof.
  assert (rows ledger_variants ≡ₚ rows ledger_variants_swapped) as Hp
    by apply perm_swap.
  assert (frame_ok ledger_variants) as H1
    by (unfold frame_ok; apply (bool_decide_unpack _); vm_compute; exact I).
  assert (no_blank_cell ledger_variants) as H2
    by (unfold no_blank_cell; apply (bool_decide_unpack _); vm_compute; exact I).
  assert (one_line_filenames ledger_variants) as H3
    by (unfold one_line_filenames, one_line; apply (bool_decide_unpack _);
        vm_compute; exact I).
  split; [reflexivity|]. split; [exact Hp|]. do 3 (split; [assumption|]).
  split.
  - exact (proj1 (proj2 (proj1 C6_merge_commutative_idempotent
                           ledger_variants ledger_variants_swapped eq_refl Hp))).
  - exact (proj2 C6_merge_commutative_idempotent ledger_variants H1 H2 H3).
Defined.

Lemma C6_merge_not_idempotent :
  rows (merge_excel_rows ledger_blank)
    = [ {["Filename" := "f.py"; "X" := PyStr.nl +:+ "a"]} ]
  ∧ rows (merge_excel_rows (merge_excel_rows ledger_blank))
    = [ {["Filename" := "f.py"; "X" := "a"]} ]
  ∧ merge_excel_rows (merge_excel_rows ledger_blank) ≠ merge_excel_rows ledger_blank.
Proof.
  assert (rows (merge_excel_rows ledger_blank)
          = [ {["Filename" := "f.py"; "X" := PyStr.nl +:+ "a"]} ]) as H1
    by (vm_compute; reflexivity).
  assert (rows (merge_excel_rows (merge_excel_rows ledger_blank))
          = [ {["Filename" := "f.py"; "X" := "a"]} ]) as H2
    by (vm_compute; reflexivity).
  split; [done|]. split; [done|]. intros Heq. rewrite Heq, H1 in H2.
  apply (f_equal (λ l : list (gmap string string),
                    head l ≫= λ m, m !! "X")) in H2.
  vm_compute in H2. discriminate H2.
Qed.

(** ** Reconciliation of one record (lines 206-251) *)

Lemma passthrough_lookup (file_data : gmap string string) entry k :
  passthrough file_data entry !! k =
    match entry !! k with
    | Some x => Some x
    | None => VStr <$> file_data !! k
    end.
Proof.
  unfold passthrough. revert k.
  apply (map_fold_weak_ind (λ (r : gmap string value) (m : gmap string string),
           ∀ k, r !! k = match entry !! k with
                         | Some x => Some x
                         | None => VStr <$> m !! k
                         end)).
  - intros k. rewrite lookup_empty. by destruct (entry !! k).
  - intros i x m r Hi IH k. destruct (r !! i) as [y|] eqn:Hr.
    + rewrite IH. destruct (entry !! k) eqn:Hk; [done|].
      rewrite lookup_insert. case_decide; [|done]. subst k.
      rewrite IH, Hk, Hi in Hr. done.
    + rewrite !lookup_insert. case_decide; [|apply IH]. subst k.
      rewrite IH in Hr. by destruct (entry !! i).
Qed.

Lemma reconcile_file_unmatched excel_map (file_data : gmap string string) :
  excel_map !! PyStr.lower (PyStr.strip (default "" (file_data !! "Filename"))) = None →
  reconcile_file excel_map file_data =
    Ok (passthrough file_data
          (<["File Remarks" := VStr ""]>
            (<["Excel Remarks" := VStr ""]>
              (<["Error" := VStr "filename missing in excel"]>
                (<["Title Match %" := VInt 0]>
                  (<["FileType" := VStr (default "" (file_data !! "FileType"))]>
                    {["Filename" := VStr (PyStr.strip (default "" (file_data !! "Filename")))]})))))).
Proof.
  intros Hnone. unfold reconcile_file. rewrite Hnone. reflexivity.
Qed.

Lemma reconcile_file_matched_raises excel_map (file_data : gmap string string) row :
  excel_map !! file_key file_data = Some row →
  is_Some (cells row !! "Filename") →
  reconcile_file excel_map file_data = Raise ValueError.
Proof.
  intros Hrow [title Htitle]. unfold reconcile_file. fold (file_key file_data).
  rewrite Hrow, Htitle.
  destruct (similar_range (PyStr.strip (default "" (file_data !! "Filename"))) title)
    as (h & -> & _).
  reflexivity.
Qed.

(** C2: a record whose trimmed, lower-cased filename is not a key of the
    ledger index yields a row, with Error [filename missing in excel], Title
    Match % the integer 0 and both remark columns empty. *)
Theorem C2_unmatched_record excel_map (file_data : gmap string string) :
  excel_map !! PyStr.lower (PyStr.strip (default "" (file_data !! "Filename"))) = None →
  ∃ entry,
    reconcile_file excel_map file_data = Ok entry
    ∧ entry !! "Error" = Some (VStr "filename missing in excel")
    ∧ entry !! "Title Match %" = Some (VInt 0)
    ∧ entry !! "Excel Remarks" = Some (VStr "")
    ∧ entry !! "File Remarks" = Some (VStr "").
Proof.
  intros Hnone. eexists. split; [by apply reconcile_file_unmatched|].
  repeat split; rewrite passthrough_lookup; by simplify_map_eq.
Qed.

Lemma C2_unmatched_record_witness :
  let file_data : gmap string string :=
    {["Filename" := "extra.java"; "FileType" := "Java"]} in
  let excel_map := excel_map_of ledger_ghost in
  excel_map !! PyStr.lower (PyStr.strip (default "" (file_data !! "Filename"))) = None
  ∧ ∃ entry,
      reconcile_file excel_map file_data = Ok entry
      ∧ entry !! "Error" = Some (VStr "filename missing in excel")
      ∧ entry !! "Title Match %" = Some (VInt 0)
      ∧ entry !! "Excel Remarks" = Some (VStr "")
      ∧ entry !! "File Remarks" = Some (VStr "").
Proof.
  intros file_data excel_map.
  assert (excel_map !! PyStr.lower (PyStr.strip (default "" (file_data !! "Filename")))
          = None) as Hnone by (vm_compute; reflexivity).
  split; [exact Hnone|]. exact (C2_unmatched_record excel_map file_data Hnone).
Defined.

(** C1: on the end-to-end example of a matched record ([report.py] listed
    with ID 7, found with ID 8) [main] yields no row: the test
    [if excel_row:] asks a pandas Series for its truth value, which raises
    [ValueError]. *)
Theorem C1_matched_record_raises :
  main ledger_report py_report [] [] = Raise ValueError.
Proof. vm_compute. reflexivity. Qed.

(** What the comparison of lines 222-239 computes on that example, were it
    reached. *)
Example compare_fields_report :
  let row := {| index := {["Filename"; "Excel_ID"]};
                cells := {["Filename" := "report.py"; "Excel_ID" := "7"]} |} in
  let remarks := compare_fields row {["ID" := "8"]} in
  remarks = (["ID: mismatch"], []) ∧ classify remarks.1 remarks.2 = "mismatch error".
Proof. vm_compute. done. Qed.

(** The comparison of lines 222-239 on a ledger row whose ID cell is NaN:
    the expected value reads [nan]. *)
Example compare_fields_nan :
  compare_fields {| index := {["Filename"; "Excel_ID"]};
                    cells := {["Filename" := "report.py"]} |} ∅
  = (["ID: missing"], []).
Proof. vm_compute. reflexivity. Qed.

(** ** The rows added for ledger entries without a file (lines 253-260) *)

Lemma add_missing_app (df : DataFrame) processed results :
  add_missing df processed results =
  results ++ (missing_row <$>
                filter (λ filename, PyStr.lower (PyStr.strip (str_cell filename)) ∉ processed)
                       ((λ row : gmap string string, row !! "Filename") <$> rows df)).
Proof.
  unfold add_missing. generalize (rows df) as l. intros l. revert results.
  induction l as [|row l IH]; intros results; simpl.
  - by rewrite app_nil_r.
  - rewrite IH, filter_cons. case_bool_decide as Hin.
    + by rewrite decide_False by (intros Hn; by apply Hn).
    + rewrite decide_True by done. by rewrite fmap_cons, <- app_assoc.
Qed.

Lemma reconcile_all_Ok excel_map all_files results processed results' processed' :
  reconcile_all excel_map all_files results processed = Ok (results', processed') →
  processed' = list_to_set (file_key <$> all_files) ∪ processed
  ∧ ∃ new, results' = results ++ new ∧ length new = length all_files.
Proof.
  revert results processed.
  induction all_files as [|file_data rest IH]; intros results processed; simpl.
  - intros [= <- <-]. split; [set_solver|]. exists []. by rewrite app_nil_r.
  - destruct (reconcile_file excel_map file_data) as [e|entry]; simpl; [done|].
    intros H. apply IH in H as (-> & new & -> & Hlen). split.
    + unfold file_key. set_solver.
    + exists (entry :: new). rewrite <- app_assoc. simpl. by rewrite Hlen.
Qed.

Lemma normalize_ledger_Filename raw df :
  normalize_ledger raw = Ok df →
  Forall (λ row : gmap string string, is_Some (row !! "Filename")) (rows df).
Proof.
  unfold normalize_ledger. case_bool_decide; [|done]. intros [= <-]. simpl.
  unfold merged_groups.
  apply Forall_fmap, Forall_fmap, Forall_fmap, Forall_forall. intros [g data] _. simpl.
  rewrite lookup_alter_eq. destruct (merged_row_Filename g data) as [v ->].
  by eexists.
Qed.

Lemma excel_map_of_Filename df k row :
  Forall (λ r : gmap string string, is_Some (r !! "Filename")) (rows df) →
  excel_map_of df !! k = Some row → is_Some (cells row !! "Filename").
Proof.
  intros Hall. unfold excel_map_of, iterrows.
  assert (map_Forall (λ _ (r : Series), is_Some (cells r !! "Filename"))
            (∅ : gmap string Series)) as Hinit by apply map_Forall_empty.
  revert Hinit. generalize (∅ : gmap string Series) as m.
  induction Hall as [|r l Hr _ IH]; intros m Hm; simpl.
  - apply Hm.
  - apply IH. by apply map_Forall_insert_2.
Qed.

Lemma reconcile_all_raises excel_map all_files results processed :
  map_Forall (λ _ (r : Series), is_Some (cells r !! "Filename")) excel_map →
  Exists (λ file_data, is_Some (excel_map !! file_key file_data)) all_files →
  reconcile_all excel_map all_files results processed = Raise ValueError.
Proof.
  intros Hmap Hex. revert results processed.
  induction all_files as [|file_data rest IH]; intros results processed.
  - by apply Exists_nil in Hex.
  - simpl. destruct (excel_map !! file_key file_data) as [row|] eqn:Hrow.
    + rewrite (reconcile_file_matched_raises _ _ row); [done..|].
      by eapply Hmap.
    + rewrite reconcile_file_unmatched by done. simpl. apply IH.
      apply Exists_cons in Hex as [[? Hex]|Hex]; [|done].
      rewrite Hrow in Hex. done.
Qed.

(** Every run in which a file is found for a ledger row ends in
    [ValueError]. *)
Lemma main_raises_on_match raw py java word df :
  normalize_ledger raw = Ok df →
  Exists (λ file_data, is_Some (excel_map_of df !! file_key file_data))
         (collect_files py java word) →
  main raw py java word = Raise ValueError.
Proof.
  intros Hdf Hex. unfold main. rewrite Hdf. simpl.
  rewrite reconcile_all_raises; [done| |done].
  intros k row. apply excel_map_of_Filename. by eapply normalize_ledger_Filename.
Qed.

Lemma reconcile_all_unmatched excel_map all_files results processed :
  Forall (λ file_data, excel_map !! file_key file_data = None) all_files →
  ∃ file_rows,
    reconcile_all excel_map all_files results processed
    = Ok (results ++ file_rows, list_to_set (file_key <$> all_files) ∪ processed).
Proof.
  intros Hall. revert results processed.
  induction Hall as [|file_data rest Hnone _ IH]; intros results processed; simpl.
  - exists []. rewrite app_nil_r. do 2 f_equal. set_solver.
  - rewrite reconcile_file_unmatched by done. simpl.
    match goal with
    | |- context [reconcile_all _ _ (results ++ [?e]) ?p] =>
        destruct (IH (results ++ [e]) p) as [file_rows ->];
        exists (e :: file_rows)
    end.
    rewrite <- app_assoc. do 2 f_equal. unfold file_key. set_solver.
Qed.

(** A run in which no file is found for any ledger row (and the ledger has a
    row) runs through. *)
Lemma main_completes raw py java word df :
  normalize_ledger raw = Ok df →
  Forall (λ file_data, excel_map_of df !! file_key file_data = None)
         (collect_files py java word) →
  ∃ results, main raw py java word = Ok results.
Proof.
  intros Hdf Hall. unfold main. rewrite Hdf. simpl.
  destruct (reconcile_all_unmatched (excel_map_of df) (collect_files py java word)
              [] ∅ Hall) as [file_rows ->].
  simpl. by eexists.
Qed.

(** C3: the ledger lists [ghost.py] and [report.py], and [report.py] is on
    disk. No collected record has the key of [ghost.py], so a row with the
    Error [file not found] is due for it. But the record of [report.py] has
    a row in the ledger: the run ends in [ValueError] at that record, before
    the loop over the ledger filenames, and emits no row at all. *)
Theorem C3_residual_row_lost :
  normalize_ledger ledger_ghost_report = Ok ledger_ghost_report
  ∧ ledger_filenames ledger_ghost_report = ["ghost.py"; "report.py"]
  ∧ never_matched (collect_files py_report [] []) "ghost.py"
  ∧ main ledger_ghost_report py_report [] [] = Raise ValueError.
Proof.
  split; [vm_compute; reflexivity|]. split; [vm_compute; reflexivity|].
  split; [apply (bool_decide_unpack _); vm_compute; exact I|].
  vm_compute. reflexivity.
Qed.

(** A ledger record with two spellings of [report.py], and [report.py] on
    disk: the file is reported as missing in the ledger and the record as
    not found. *)
Example residual_row_for_file_on_disk :
  main ledger_variants py_report [] []
  = Ok [ {[ "Filename" := VStr "report.py"; "FileType" := VStr "Python";
            "Title Match %" := VInt 0; "Error" := VStr "filename missing in excel";
            "Excel Remarks" := VStr ""; "File Remarks" := VStr "";
            "ID" := VStr "8" ]};
         residual_row ("Report.py" +:+ PyStr.nl +:+ "report.py") ].
Proof.
  vm_cast_no_check
    (eq_refl (@Ok (list (gmap string value))
                [ {[ "Filename" := VStr "report.py"; "FileType" := VStr "Python";
                     "Title Match %" := VInt 0;
                     "Error" := VStr "filename missing in excel";
                     "Excel Remarks" := VStr ""; "File Remarks" := VStr "";
                     "ID" := VStr "8" ]};
                  residual_row ("Report.py" +:+ PyStr.nl +:+ "report.py") ])).
Qed.

(** ** The document extractor (lines 150-171) *)

Lemma flatten_lookup (metadata combined_fields : gmap string string) k :
  flatten metadata combined_fields !! k =
    match metadata !! k, combined_fields !! k with
    | Some m, Some c => Some (m +:+ PyStr.nl +:+ c)
    | Some m, None => Some m
    | None, c => c
    end.
Proof.
  unfold flatten. revert k.
  apply (map_fold_weak_ind (λ (r m : gmap string string),
           ∀ k, r !! k = match metadata !! k, m !! k with
                         | Some x, Some c => Some (x +:+ PyStr.nl +:+ c)
                         | Some x, None => Some x
                         | None, c => c
                         end)).
  - intros k. rewrite lookup_empty. by destruct (metadata !! k).
  - intros i x m r Hi IH k.
    assert (r !! i = metadata !! i) as Hr.
    { rewrite IH, Hi. by destruct (metadata !! i). }
    destruct (decide (k = i)) as [->|Hk].
    + rewrite Hr. destruct (metadata !! i); by rewrite !lookup_insert_eq.
    + destruct (r !! i); rewrite !lookup_insert_ne by done; apply IH.
Qed.

Lemma extract_word_header_lookup doc k :
  k ≠ "Word Template Issues" →
  extract_word_header doc !! k =
    flatten (extract_word_cases doc).1.1
            (combine_cases (extract_word_cases doc).1.2) !! k.
Proof.
  intros Hk. unfold extract_word_header.
  destruct (extract_word_cases doc) as [[metadata cases] mismatches]. simpl.
  destruct mismatches; [done|]. by rewrite lookup_insert_ne.
Qed.

(** C4, as the code has it: for every key other than
    [Word Template Issues], a key of the metadata that no case has keeps its
    metadata value, a key that only cases have gets the combined case value,
    and a key of both gets the metadata value, a line feed and the combined
    case value. *)
Theorem C4_flatten_appends doc k :
  k ≠ "Word Template Issues" →
  extract_word_header doc !! k =
    match (extract_word_cases doc).1.1 !! k,
          combine_cases (extract_word_cases doc).1.2 !! k with
    | Some m, Some c => Some (m +:+ PyStr.nl +:+ c)
    | Some m, None => Some m
    | None, c => c
    end.
Proof.
  intros Hk. rewrite extract_word_header_lookup by done. apply flatten_lookup.
Qed.

Lemma C4_flatten_appends_witness :
  "ID" ≠ "Word Template Issues"
  ∧ extract_word_header doc_collision !! "ID" = Some ("1" +:+ PyStr.nl +:+ "2").
Proof.
  split; [done|]. rewrite (C4_flatten_appends doc_collision "ID"); [|done].
  vm_compute. reflexivity.
Defined.

Lemma C4_metadata_overwritten :
  (extract_word_cases doc_collision).1.1 !! "ID" = Some "1"
  ∧ extract_word_header doc_collision !! "ID" = Some ("1" +:+ PyStr.nl +:+ "2")
  ∧ extract_word_header doc_collision !! "ID"
      ≠ (extract_word_cases doc_collision).1.1 !! "ID".
Proof. vm_compute. done. Qed.

(** ** The literal-header extractor (lines 77-96) *)

Lemma java_loop_before_marker pre file lines :
  Forall (λ l, PyStr.contains header_marker l = false) pre →
  java_loop (pre ++ file) false lines = java_loop file false lines.
Proof.
  induction 1 as [|l pre Hl _ IH]; simpl; [done|]. by rewrite Hl.
Qed.

Lemma java_loop_unterminated rest lines :
  Forall (λ l, PyStr.contains header_end l = false) rest →
  java_loop rest true lines =
    lines ++ (PyStr.strip <$>
                filter (λ l, PyStr.contains header_marker l = false) rest).
Proof.
  intros Hrest. revert lines.
  induction Hrest as [|l rest Hl _ IH]; intros lines; simpl.
  - by rewrite app_nil_r.
  - rewrite filter_cons.
    destruct (PyStr.contains header_marker l) eqn:Hm.
    + rewrite decide_False by done. apply IH.
    + rewrite decide_True by done. rewrite Hl, IH, fmap_cons, <- app_assoc. done.
Qed.

(** C5, as the code has it: when the marker line is followed by no line
    with the terminator, the extractor returns (it has no failing path) the
    fields read from all the lines after the marker line, further marker
    lines apart, up to the end of the file. *)
Theorem C5_unterminated_header pre marker_line rest :
  Forall (λ l, PyStr.contains header_marker l = false) pre →
  PyStr.contains header_marker marker_line = true →
  Forall (λ l, PyStr.contains header_end l = false) rest →
  extract_java_header (pre ++ marker_line :: rest) =
    java_fields
      (full_header_of
         (PyStr.strip <$>
            filter (λ l, PyStr.contains header_marker l = false) rest)).
Proof.
  intros Hpre Hmarker Hrest. unfold extract_java_header.
  rewrite java_loop_before_marker by done. simpl. rewrite Hmarker.
  by rewrite java_loop_unterminated.
Qed.

Lemma C5_unterminated_header_witness :
  Forall (λ l, PyStr.contains header_marker l = false) []
  ∧ PyStr.contains header_marker ("  public static String Header =" +:+ PyStr.nl) = true
  ∧ Forall (λ l, PyStr.contains header_end l = false)
           ["    " +:+ PyStr.dquote +:+ "id: 7" +:+ PyStr.dquote +:+ PyStr.nl]
  ∧ extract_java_header java_unterminated = {["ID" := "7"]}.
Proof.
  assert (Forall (λ l, PyStr.contains header_end l = false)
            ["    " +:+ PyStr.dquote +:+ "id: 7" +:+ PyStr.dquote +:+ PyStr.nl]) as Hrest.
  { repeat constructor. }
  split; [constructor|]. split; [reflexivity|]. split; [exact Hrest|].
  pose proof (C5_unterminated_header []
                ("  public static String Header =" +:+ PyStr.nl) _
                (Forall_nil_2 _) eq_refl Hrest) as Heq.
  simpl app in Heq. unfold java_unterminated. rewrite Heq.
  vm_compute. reflexivity.
Defined.

Lemma C5_unterminated_not_empty :
  PyStr.contains header_marker ("  public static String Header =" +:+ PyStr.nl) = true
  ∧ PyStr.contains header_end
      ("    " +:+ PyStr.dquote +:+ "id: 7" +:+ PyStr.dquote +:+ PyStr.nl) = false
  ∧ extract_java_header java_unterminated !! "ID" = Some "7"
  ∧ extract_java_header java_unterminated ≠ ∅.
Proof. vm_compute. repeat split; done. Qed.

(** ** The comment-header extractor (lines 59-73) *)

(** C9, as the code has it: a comment line without a colon is appended,
    after a line feed, to the value of the active key when that key is not
    the empty string; it is dropped when no pair has been seen yet and when
    the active key is the empty string; and [# ID: 42] followed by
    [# more text] and then by no further comment line gives exactly
    [{"ID": "42\nmore text"}]. *)
Theorem C9_continuation_lines :
  (∀ line rest data k,
     PyStr.startswith "#" (PyStr.strip line) = true →
     PyStr.split_first ":" (PyStr.strip (PyStr.lstrip_char "#" line)) = None →
     k ≠ "" →
     comment_loop (line :: rest) data (Some k) =
       comment_loop rest
         (alter (λ v, v +:+ PyStr.nl +:+ PyStr.strip (PyStr.lstrip_char "#" line)) k data)
         (Some k))
  ∧ (∀ line rest data,
       PyStr.startswith "#" (PyStr.strip line) = true →
       PyStr.split_first ":" (PyStr.strip (PyStr.lstrip_char "#" line)) = None →
       comment_loop (line :: rest) data None = comment_loop rest data None
       ∧ comment_loop (line :: rest) data (Some "") = comment_loop rest data (Some ""))
  ∧ (∀ rest,
       match rest with
       | [] => True
       | line :: _ => PyStr.startswith "#" (PyStr.strip line) = false
       end →
       extract_comment_header
         (("# ID: 42" +:+ PyStr.nl) :: ("# more text" +:+ PyStr.nl) :: rest)
       = {["ID" := "42" +:+ PyStr.nl +:+ "more text"]}).
Proof.
  split; [|split].
  - intros line rest data k Hc Hn Hk. simpl. rewrite Hc, Hn. simpl.
    destruct k; [done|]. simpl. by rewrite strip_strip.
  - intros line rest data Hc Hn. simpl. rewrite Hc, Hn. done.
  - intros rest Hrest. unfold extract_comment_header.
    change (comment_loop (_ :: _ :: rest) ∅ None)
      with (comment_loop rest
              (alter (λ v, v +:+ PyStr.nl +:+ "more text") "ID"
                     (<["ID" := "42"]> ∅)) (Some "ID")).
    assert (alter (λ v, v +:+ PyStr.nl +:+ "more text") "ID"
              (<["ID" := "42"]> (∅ : gmap string string))
            = {["ID" := "42" +:+ PyStr.nl +:+ "more text"]}) as ->.
    { vm_compute. reflexivity. }
    destruct rest as [|line rest]; simpl; [done|]. by rewrite Hrest.
Qed.

Lemma C9_continuation_lines_witness :
  extract_comment_header
    [ "# ID: 42" +:+ PyStr.nl; "# more text" +:+ PyStr.nl; "import os" +:+ PyStr.nl ]
  = {["ID" := "42" +:+ PyStr.nl +:+ "more text"]}.
Proof.
  apply (proj2 (proj2 C9_continuation_lines)). vm_compute. reflexivity.
Defined.

Lemma C9_empty_key_drops_continuation :
  extract_comment_header py_empty_key = {["" := "v"]}
  ∧ extract_comment_header py_empty_key ≠ {["" := "v" +:+ PyStr.nl +:+ "more"]}.
Proof. vm_compute. split; done. Qed.

(** ** The records handed to the reconciliation (lines 188-195) *)

Lemma collect_folder_fields {C} ext (extractor : C → gmap string string)
    filetype (dir : folder C) :
  Forall (λ data : gmap string string,
            (∃ file, (default "" (data !! "Filename"), file) ∈ dir)
            ∧ data !! "FileType" = Some filetype)
         (collect_folder ext extractor filetype dir).
Proof.
  induction dir as [|[fname file] dir IH]; simpl; [constructor|].
  assert (Forall (λ data : gmap string string,
            (∃ file', (default "" (data !! "Filename"), file') ∈ (fname, file) :: dir)
            ∧ data !! "FileType" = Some filetype)
            (collect_folder ext extractor filetype dir)) as IH'.
  { eapply Forall_impl; [exact IH|]. intros data [[file' Hin] Hty].
    split; [|done]. exists file'. by right. }
  destruct (PyStr.endswith ext fname); simpl; [|done].
  constructor; [|done]. split.
  - exists file. rewrite lookup_insert_ne by done. rewrite lookup_insert_eq.
    simpl. by left.
  - by rewrite lookup_insert_eq.
Qed.

(** The literal-header extractor sends every key that reads [title], in
    any letter case, to [Filename]: no such key is left in its result. *)
Lemma java_fields_no_title full_header k :
  PyStr.lower k = "title" → java_fields full_header !! k = None.
Proof.
  intros Hk. unfold java_fields.
  generalize (PyStr.split "\n" full_header) as pieces. intros pieces.
  assert ((∅ : gmap string string) !! k = None) as Hinit by done.
  revert Hinit. generalize (∅ : gmap string string) as data.
  induction pieces as [|line pieces IH]; intros data Hdata; simpl; [done|].
  apply IH. destruct (PyStr.split_first ":" line) as [[key val]|]; [|done].
  rewrite lookup_insert_ne; [done|]. intros <-.
  destruct (JAVA_KEY_MAP !! PyStr.lower (PyStr.strip key)) as [alias|] eqn:Ha;
    simpl in Hk.
  - unfold JAVA_KEY_MAP in Ha.
    apply elem_of_list_to_map_2 in Ha.
    repeat (apply elem_of_cons in Ha as [Ha|Ha];
            [injection Ha as _ ->; vm_compute in Hk; discriminate|]).
    by apply elem_of_nil in Ha.
  - rewrite Hk in Ha. vm_compute in Ha. discriminate.
Qed.

(** C10: for a document whose template table has a row [title], the record
    handed to the reconciliation still has the key [title] beside the
    [Filename] of the disk, and the report row carries it: the document
    extractor never applies [WORD_KEY_MAP]. *)
Theorem C10_word_title_passes_through :
  ∃ data entry,
    collect_files [] [] word_titled = [data]
    ∧ data !! "Filename" = Some "spec.docx"
    ∧ data !! "FileType" = Some "Word"
    ∧ WORD_KEY_MAP !! "title" = Some "Filename"
    ∧ data !! "title" = Some "My Title"
    ∧ reconcile_file ∅ data = Ok entry
    ∧ entry !! "title" = Some (VStr "My Title").
Proof.
  eexists _, _. split; [reflexivity|].
  do 4 (split; [vm_compute; reflexivity|]).
  split; [apply reconcile_file_unmatched; vm_compute; reflexivity|].
  vm_compute. reflexivity.
Qed.

(** * Further properties *)

(** ** The tables of a document (lines 100-171) *)

Section word_tables.

Lemma truthy_ne s : PyStr.truthy s = true ↔ s ≠ "".
Proof. destruct s; simpl; split; done. Qed.

Lemma app_assoc_str s1 s2 s3 : (s1 +:+ s2) +:+ s3 = s1 +:+ s2 +:+ s3.
Proof.
  induction s1 as [|c s1 IH]; [done|]. rewrite !app_cons. by rewrite IH.
Qed.

Lemma join_cons sep x y l :
  PyStr.join sep (x :: y :: l) = x +:+ sep +:+ PyStr.join sep (y :: l).
Proof. reflexivity. Qed.

(** Appending to the head of a joined list. *)
Lemma join_head x v l :
  PyStr.join PyStr.nl ((x +:+ PyStr.nl +:+ v) :: l)
  = PyStr.join PyStr.nl (x :: v :: l).
Proof.
  destruct l as [|y l]; [done|]. rewrite !join_cons.
  by rewrite !app_assoc_str.
Qed.

Lemma row_values_cons key row t :
  row_values key (row :: t)
  = match row_value key row with
    | Some v => v :: row_values key t
    | None => row_values key t
    end.
Proof. reflexivity. Qed.

Lemma read_metadata_fold t (m : gmap string string) key :
  key ≠ "" →
  foldl (λ metadata row,
           match row with
           | c0 :: c1 :: _ =>
               let key := PyStr.strip c0 in
               let val := PyStr.strip c1 in
               if PyStr.truthy key then <[key := val]> metadata else metadata
           | _ => metadata
           end) m t !! key
  = match last (row_values key t) with
    | Some v => Some v
    | None => m !! key
    end.
Proof.
  intros Hkey. revert m. induction t as [|row t IH]; intros m; [done|].
  cbn [foldl]. rewrite IH, row_values_cons.
  destruct row as [|c0 [|c1 cs]]; [done..|]. cbn [row_value].
  destruct (decide (PyStr.strip c0 = key)) as [<-|Hne].
  - apply truthy_ne in Hkey. rewrite Hkey, lookup_insert_eq, last_cons.
    by destruct (last _).
  - destruct (PyStr.truthy (PyStr.strip c0)); [|done].
    by rewrite lookup_insert_ne.
Qed.

Lemma read_metadata_lookup t key :
  key ≠ "" → read_metadata t !! key = last (row_values key t).
Proof.
  intros Hkey. unfold read_metadata. rewrite read_metadata_fold by done.
  rewrite lookup_empty. by destruct (last _).
Qed.

Lemma read_metadata_empty_key t : read_metadata t !! "" = None.
Proof.
  unfold read_metadata.
  assert ((∅ : gmap string string) !! "" = None) as H by done.
  revert H. generalize (∅ : gmap string string) as m.
  induction t as [|row t IH]; intros m Hm; [done|]. cbn [foldl]. apply IH.
  destruct row as [|c0 [|c1 cs]]; [done..|].
  destruct (PyStr.truthy (PyStr.strip c0)) eqn:Ht; [|done].
  rewrite lookup_insert_ne; [done|]. intros Heq. rewrite Heq in Ht. done.
Qed.

Lemma ol_Some {A} (x : A) l : option_list (Some x) ++ l = x :: l.
Proof. reflexivity. Qed.

Lemma ol_None {A} (l : list A) : option_list None ++ l = l.
Proof. reflexivity. Qed.

Lemma join_app xs ys :
  xs ≠ [] → ys ≠ [] →
  PyStr.join PyStr.nl (xs ++ ys)
  = PyStr.join PyStr.nl xs +:+ PyStr.nl +:+ PyStr.join PyStr.nl ys.
Proof.
  intros Hxs Hys. induction xs as [|x [|x' xs] IH]; [done|..].
  - destruct ys; [done|reflexivity].
  - change ((x :: x' :: xs) ++ ys) with (x :: x' :: (xs ++ ys)).
    rewrite !join_cons.
    change (x' :: (xs ++ ys)) with ((x' :: xs) ++ ys). rewrite IH by done.
    by rewrite !app_assoc_str.
Qed.

Lemma joined_app xs ys :
  joined (xs ++ ys)
  = match joined xs, joined ys with
    | Some a, Some b => Some (a +:+ PyStr.nl +:+ b)
    | Some a, None => Some a
    | None, b => b
    end.
Proof.
  destruct xs as [|x xs]; [by destruct ys|].
  destruct ys as [|y ys]; [rewrite app_nil_r; reflexivity|].
  change (Some (PyStr.join PyStr.nl ((x :: xs) ++ y :: ys))
          = Some (PyStr.join PyStr.nl (x :: xs) +:+ PyStr.nl
                  +:+ PyStr.join PyStr.nl (y :: ys))).
  by rewrite join_app.
Qed.

Lemma read_case_fold t (m : gmap string string) key :
  key ≠ "" →
  foldl (λ case_data row,
           match row with
           | c0 :: c1 :: _ =>
               let key := PyStr.strip c0 in
               let val := PyStr.strip c1 in
               if PyStr.truthy key then
                 match case_data !! key with
                 | Some old => <[key := old +:+ PyStr.nl +:+ val]> case_data
                 | None => <[key := val]> case_data
                 end
               else case_data
           | _ => case_data
           end) m t !! key
  = joined (option_list (m !! key) ++ row_values key t).
Proof.
  intros Hkey. revert m. induction t as [|row t IH]; intros m.
  { simpl. rewrite app_nil_r. by destruct (m !! key). }
  cbn [foldl]. rewrite IH, row_values_cons.
  destruct row as [|c0 [|c1 cs]]; [done..|]. cbn [row_value].
  destruct (decide (PyStr.strip c0 = key)) as [<-|Hne].
  - apply truthy_ne in Hkey. rewrite Hkey.
    destruct (m !! PyStr.strip c0) as [old|]; rewrite lookup_insert_eq; [|done].
    rewrite !ol_Some. unfold joined. by rewrite join_head.
  - destruct (PyStr.truthy (PyStr.strip c0)); [|done].
    destruct (m !! PyStr.strip c0); by rewrite lookup_insert_ne.
Qed.

Lemma read_case_lookup t key :
  key ≠ "" → read_case t !! key = joined (row_values key t).
Proof.
  intros Hkey. unfold read_case. rewrite read_case_fold by done.
  by rewrite lookup_empty.
Qed.

Lemma read_case_empty_key t : read_case t !! "" = None.
Proof.
  unfold read_case.
  assert ((∅ : gmap string string) !! "" = None) as H by done.
  revert H. generalize (∅ : gmap string string) as m.
  induction t as [|row t IH]; intros m Hm; [done|]. cbn [foldl]. apply IH.
  destruct row as [|c0 [|c1 cs]]; [done..|].
  destruct (PyStr.truthy (PyStr.strip c0)) eqn:Ht; [|done].
  assert (PyStr.strip c0 ≠ "") as Hne by (intros Heq; by rewrite Heq in Ht).
  destruct (m !! PyStr.strip c0); by rewrite lookup_insert_ne.
Qed.

(** One case merged into [combined_fields]. *)
Lemma combine_step_lookup (acc case_data : gmap string string) k :
  map_fold (λ key val combined_fields,
              match combined_fields !! key with
              | Some old => <[key := old +:+ PyStr.nl +:+ val]> combined_fields
              | None => <[key := val]> combined_fields
              end) acc case_data !! k
  = joined (option_list (acc !! k) ++ option_list (case_data !! k)).
Proof.
  revert k.
  apply (map_fold_weak_ind (λ (r m : gmap string string),
           ∀ k, r !! k = joined (option_list (acc !! k) ++ option_list (m !! k)))).
  - intros k. rewrite lookup_empty. by destruct (acc !! k).
  - intros i x m r Hi IH k.
    assert (r !! i = acc !! i) as Hr.
    { rewrite IH, Hi. by destruct (acc !! i). }
    destruct (decide (k = i)) as [->|Hk].
    + rewrite Hr. destruct (acc !! i); by rewrite !lookup_insert_eq.
    + destruct (r !! i); rewrite !lookup_insert_ne by done; apply IH.
Qed.

Lemma combine_cases_fold cases (acc : gmap string string) k :
  foldl (λ combined_fields case_data,
           map_fold (λ key val combined_fields,
                       match combined_fields !! key with
                       | Some old =>
                           <[key := old +:+ PyStr.nl +:+ val]> combined_fields
                       | None => <[key := val]> combined_fields
                       end)
                    combined_fields case_data) acc cases !! k
  = joined (option_list (acc !! k) ++ omap (.!! k) cases).
Proof.
  revert acc. induction cases as [|c cases IH]; intros acc.
  { simpl. rewrite app_nil_r. by destruct (acc !! k). }
  cbn [foldl]. rewrite IH, combine_step_lookup.
  change (omap (.!! k) (c :: cases))
    with (match c !! k with
          | Some v => v :: omap (.!! k) cases
          | None => omap (.!! k) cases
          end).
  destruct (acc !! k) as [a|], (c !! k) as [v|];
    unfold option_list; cbn [option_rect app joined]; try done.
  change (PyStr.join PyStr.nl [a; v]) with (a +:+ PyStr.nl +:+ v).
  by rewrite join_head.
Qed.

Lemma combine_cases_lookup cases k :
  combine_cases cases !! k = joined (omap (.!! k) cases).
Proof.
  unfold combine_cases. rewrite combine_cases_fold. by rewrite lookup_empty.
Qed.

(** Joining the joined values of each table is joining all the values. *)
Lemma joined_tables key (ts : list table) :
  key ≠ "" →
  joined (omap (.!! key) (read_case <$> ts))
  = joined (concat (row_values key <$> ts)).
Proof.
  intros Hkey. induction ts as [|t ts IH]; [done|].
  rewrite fmap_cons.
  change (omap (.!! key) (read_case t :: (read_case <$> ts)))
    with (match read_case t !! key with
          | Some v => v :: omap (.!! key) (read_case <$> ts)
          | None => omap (.!! key) (read_case <$> ts)
          end).
  rewrite read_case_lookup by done. cbn [fmap list_fmap concat].
  rewrite joined_app.
  destruct (row_values key t) as [|v vs] eqn:Hv.
  - simpl. apply IH.
  - change (joined (v :: vs)) with (Some (PyStr.join PyStr.nl (v :: vs))).
    cbv beta iota. rewrite <- IH. by destruct (omap _ _).
Qed.

End word_tables.

(** X1: in the first table of a document a row counts when it has two cells
    or more and a first cell that is not blank; of the rows that give the
    same key the last one gives the value, and the empty key is never set. *)
Theorem X1_metadata_last_row_wins t key :
  read_metadata t !! key
  = if decide (key = "") then None else last (row_values key t).
Proof.
  destruct (decide (key = "")) as [->|Hkey].
  - apply read_metadata_empty_key.
  - by apply read_metadata_lookup.
Qed.

(** X2: in a case table the rows that give the same key have their values
    joined by line feeds, in the order of the rows; the empty key is never
    set. *)
Theorem X2_case_rows_joined t key :
  read_case t !! key
  = if decide (key = "") then None else joined (row_values key t).
Proof.
  destruct (decide (key = "")) as [->|Hkey].
  - apply read_case_empty_key.
  - by apply read_case_lookup.
Qed.

(** X3: the header of a document of two tables or more. Under a key other
    than [Word Template Issues] it holds the last value the first table
    gives and then every value the case tables give, in the order of the
    document, joined by line feeds; it has no such key when no table gives a
    value, and it never has the empty key. *)
Theorem X3_word_header_values t0 t1 ts key :
  key ≠ "Word Template Issues" →
  extract_word_header (t0 :: t1 :: ts) !! key
  = if decide (key = "") then None
    else joined (option_list (last (row_values key t0))
                 ++ concat (row_values key <$> t1 :: ts)).
Proof.
  intros Hissue. rewrite extract_word_header_lookup by done.
  rewrite flatten_lookup. cbn [extract_word_cases fst snd].
  rewrite combine_cases_lookup.
  destruct (decide (key = "")) as [->|Hkey].
  - rewrite read_metadata_empty_key.
    assert (omap (.!! "") (read_case <$> t1 :: ts) = []) as ->; [|done].
    induction (t1 :: ts) as [|t l IH]; [done|].
    rewrite fmap_cons.
    change (omap (.!! "") (read_case t :: (read_case <$> l)))
      with (match read_case t !! "" with
            | Some v => v :: omap (.!! "") (read_case <$> l)
            | None => omap (.!! "") (read_case <$> l)
            end).
    by rewrite read_case_empty_key.
  - rewrite read_metadata_lookup by done.
    rewrite (joined_tables key (t1 :: ts)) by done.
    rewrite joined_app.
    by destruct (last (row_values key t0)).
Qed.

Lemma X3_word_header_values_witness :
  extract_word_header doc_repeated !! "ID"
  = Some ("1" +:+ PyStr.nl +:+ "2" +:+ PyStr.nl +:+ "3" +:+ PyStr.nl +:+ "4").
Proof.
  unfold doc_repeated.
  rewrite X3_word_header_values; [|done]. vm_compute. reflexivity.
Defined.

(** X4: a document with fewer than two tables gives one field only, the
    diagnostic [Template or test cases not found] under
    [Word Template Issues], whatever its table holds. *)
Theorem X4_word_short_document doc :
  length doc < 2 →
  extract_word_cases doc = (∅, [], ["Template or test cases not found"])
  ∧ extract_word_header doc
    = {["Word Template Issues" := "Template or test cases not found"]}.
Proof.
  intros Hlen. destruct doc as [|t0 [|t1 ts]]; [| |simpl in Hlen; lia].
  - split; [done|]. vm_compute. reflexivity.
  - split; [done|]. vm_compute. reflexivity.
Qed.

Lemma X4_word_short_document_witness :
  extract_word_header [ [["ID"; "1"]] ]
  = {["Word Template Issues" := "Template or test cases not found"]}.
Proof. apply (X4_word_short_document [ [["ID"; "1"]] ]). simpl. lia. Defined.

(** ** The identifiers of a document (lines 115-145) *)

Section word_ids.

Lemma elem_of_listed_ids x v :
  x ∈ listed_ids v
  ↔ x ≠ "" ∧ ∃ p, p ∈ PyStr.split "," (PyStr.replace ";" "," v) ∧ x = PyStr.strip p.
Proof.
  unfold listed_ids. rewrite elem_of_list_to_set, list_elem_of_filter.
  rewrite list_elem_of_fmap, truthy_ne. split.
  - intros [Hx (p & -> & Hp)]. eauto.
  - intros [Hx (p & Hp & ->)]. eauto.
Qed.

Lemma elem_of_expected_ids x (metadata : gmap string string) :
  x ∈ expected_ids_of metadata
  ↔ ∃ k v, metadata !! k = Some v
           ∧ PyStr.contains "another id" (PyStr.lower k) = true
           ∧ x ∈ listed_ids v.
Proof.
  unfold expected_ids_of.
  apply (map_fold_weak_ind (λ (r : gset string) (m : gmap string string),
           x ∈ r ↔ ∃ k v, m !! k = Some v
                          ∧ PyStr.contains "another id" (PyStr.lower k) = true
                          ∧ x ∈ listed_ids v)).
  - split; [set_solver|]. intros (k & v & Hk & _). by rewrite lookup_empty in Hk.
  - intros i v m r Hi IH.
    destruct (PyStr.contains "another id" (PyStr.lower i)) eqn:Hc.
    + rewrite elem_of_union, IH. split.
      * intros [Hx|(k & w & Hk & Hck & Hx)].
        -- exists i, v. by rewrite lookup_insert_eq.
        -- exists k, w. rewrite lookup_insert_ne; [done|]. by intros ->; rewrite Hi in Hk.
      * intros (k & w & Hk & Hck & Hx).
        destruct (decide (k = i)) as [->|Hne].
        -- rewrite lookup_insert_eq in Hk. injection Hk as ->. by left.
        -- rewrite lookup_insert_ne in Hk by done. right. eauto.
    + rewrite IH. split.
      * intros (k & w & Hk & Hck & Hx). exists k, w.
        rewrite lookup_insert_ne; [done|]. by intros ->; rewrite Hi in Hk.
      * intros (k & w & Hk & Hck & Hx).
        destruct (decide (k = i)) as [->|Hne]; [congruence|].
        rewrite lookup_insert_ne in Hk by done. eauto.
Qed.

Lemma elem_of_found_fold x cases (acc : gset string) :
  x ∈ foldl (λ found case_data,
               match case_id case_data with
               | Some cid =>
                   if PyStr.truthy cid then {[PyStr.strip cid]} ∪ found else found
               | None => found
               end) acc cases
  ↔ x ∈ acc ∨ ∃ c cid, c ∈ cases ∧ case_id c = Some cid ∧ cid ≠ ""
                       ∧ x = PyStr.strip cid.
Proof.
  revert acc. induction cases as [|c cases IH]; intros acc.
  { simpl. split; [by left|]. intros [?|(c & cid & Hc & _)]; [done|].
    by apply elem_of_nil in Hc. }
  cbn [foldl]. rewrite IH. split.
  - intros [Hx|(c' & cid & Hc & ?)].
    + destruct (case_id c) as [cid|] eqn:Hcid; [|by left].
      destruct (PyStr.truthy cid) eqn:Ht; [|by left].
      apply elem_of_union in Hx as [Hx|Hx]; [|by left].
      right. exists c, cid. apply elem_of_singleton in Hx.
      split; [by left|]. split; [done|]. split; [by apply truthy_ne|done].
    + right. exists c', cid. split; [by right|done].
  - intros [Hx|(c' & cid & Hc & Hcid & Hne & ->)].
    + left. destruct (case_id c) as [cid|]; [|done].
      destruct (PyStr.truthy cid); [|done]. apply elem_of_union. by right.
    + apply elem_of_cons in Hc as [->|Hc].
      * left. rewrite Hcid. apply truthy_ne in Hne. rewrite Hne.
        apply elem_of_union. left. by apply elem_of_singleton.
      * right. eauto 6.
Qed.

Lemma id_mismatches_nil (e f : gset string) : id_mismatches e f = [] ↔ e = f.
Proof.
  unfold id_mismatches. split.
  - intros H. destruct (decide (e ∖ f = ∅)) as [H1|]; [|done].
    destruct (decide (f ∖ e = ∅)) as [H2|]; [|done].
    apply set_eq. intros x. split; intros Hx.
    + destruct (decide (x ∈ f)) as [|Hn]; [done|].
      assert (x ∈ e ∖ f) as Hd by (apply elem_of_difference; done).
      rewrite H1 in Hd. by apply elem_of_empty in Hd.
    + destruct (decide (x ∈ e)) as [|Hn]; [done|].
      assert (x ∈ f ∖ e) as Hd by (apply elem_of_difference; done).
      rewrite H2 in Hd. by apply elem_of_empty in Hd.
  - intros ->. rewrite !decide_True; [done|..]; apply set_eq; set_solver.
Qed.

End word_ids.

(** X5: a document of two tables or more gets no identifier diagnostic
    exactly when the identifiers its first table lists are the identifiers
    its cases carry; there are never more than two diagnostics. *)
Theorem X5_word_diagnostics t0 t1 ts :
  ((extract_word_cases (t0 :: t1 :: ts)).2 = []
   ↔ expected_ids_of (read_metadata t0) = found_ids_of (read_case <$> t1 :: ts))
  ∧ length (extract_word_cases (t0 :: t1 :: ts)).2 ≤ 2.
Proof.
  cbn [extract_word_cases snd]. split; [apply id_mismatches_nil|].
  unfold id_mismatches.
  destruct (decide _), (decide _); simpl; lia.
Qed.

(** X6: the identifiers a document is expected to have are the pieces,
    trimmed and not empty, that commas and semicolons separate in the values
    of the metadata keys that contain [another id] in any letter case. *)
Theorem X6_expected_ids (metadata : gmap string string) x :
  x ∈ expected_ids_of metadata
  ↔ x ≠ ""
    ∧ ∃ k v p, metadata !! k = Some v
               ∧ PyStr.contains "another id" (PyStr.lower k) = true
               ∧ p ∈ PyStr.split "," (PyStr.replace ";" "," v)
               ∧ x = PyStr.strip p.
Proof.
  rewrite elem_of_expected_ids. split.
  - intros (k & v & Hk & Hc & Hx). apply elem_of_listed_ids in Hx as [Hne (p & Hp & ->)].
    split; [done|]. by exists k, v, p.
  - intros [Hne (k & v & p & Hk & Hc & Hp & ->)]. exists k, v.
    split; [done|]. split; [done|]. apply elem_of_listed_ids. eauto.
Qed.

(** X7: the identifiers found in the cases are the trimmed values of
    [Case ID], or of [case id] when [Case ID] is missing or empty, of the
    cases where that value is not empty. *)
Theorem X7_found_ids cases x :
  x ∈ found_ids_of cases
  ↔ ∃ c cid, c ∈ cases ∧ case_id c = Some cid ∧ cid ≠ "" ∧ x = PyStr.strip cid.
Proof.
  unfold found_ids_of. rewrite elem_of_found_fold. split; [|by right].
  intros [Hx|?]; [|done]. by apply elem_of_empty in Hx.
Qed.

(** ** The lines a header is read from (lines 59-96) *)

Section comment_scan.

Lemma comment_loop_stops hdr line rest data current_key :
  PyStr.startswith "#" (PyStr.strip line) = false →
  comment_loop (hdr ++ line :: rest) data current_key
  = comment_loop hdr data current_key.
Proof.
  intros Hline. revert data current_key.
  induction hdr as [|l hdr IH]; intros data current_key.
  - simpl. by rewrite Hline.
  - cbn [app comment_loop].
    destruct (negb (PyStr.startswith "#" (PyStr.strip l))); [done|].
    cbv zeta.
    destruct (PyStr.split_first ":" _) as [[key val]|]; [apply IH|].
    destruct current_key as [k|]; [|apply IH].
    destruct (PyStr.truthy k); apply IH.
Qed.

End comment_scan.

Section java_scan.

Lemma java_loop_body body rest lines :
  Forall (λ l, PyStr.contains header_marker l = true
               ∨ PyStr.contains header_end l = false) body →
  java_loop (body ++ rest) true lines
  = java_loop rest true
      (lines ++ (PyStr.strip <$>
                   filter (λ l, PyStr.contains header_marker l = false) body)).
Proof.
  intros Hbody. revert lines.
  induction Hbody as [|l body Hl _ IH]; intros lines.
  - simpl. by rewrite app_nil_r.
  - cbn [app java_loop]. rewrite filter_cons.
    destruct (PyStr.contains header_marker l) eqn:Hm.
    + rewrite decide_False by done. apply IH.
    + destruct Hl as [?|He]; [done|]. rewrite He, decide_True by done.
      rewrite IH, fmap_cons. by rewrite <- app_assoc.
Qed.

Lemma java_loop_closed pre m body e post :
  Forall (λ l, PyStr.contains header_marker l = false) pre →
  PyStr.contains header_marker m = true →
  Forall (λ l, PyStr.contains header_marker l = true
               ∨ PyStr.contains header_end l = false) body →
  PyStr.contains header_marker e = false →
  PyStr.contains header_end e = true →
  java_loop (pre ++ m :: body ++ e :: post) false []
  = PyStr.strip <$> filter (λ l, PyStr.contains header_marker l = false) body.
Proof.
  intros Hpre Hm Hbody He1 He2. rewrite java_loop_before_marker by done.
  cbn [java_loop]. rewrite Hm, java_loop_body by done.
  cbn [java_loop]. by rewrite He1, He2.
Qed.

Lemma JAVA_KEY_MAP_values k v :
  JAVA_KEY_MAP !! k = Some v → v ∈ canonical_names.
Proof.
  intros Hk. unfold canonical_names. apply list_elem_of_fmap.
  exists (k, v). split; [done|]. by apply elem_of_map_to_list.
Qed.

Lemma canonical_names_spec v :
  v ∈ canonical_names → PyStr.strip v = v.
Proof.
  intros Hv.
  assert (Forall (λ v, PyStr.strip v = v) canonical_names) as Hall.
  { apply (bool_decide_unpack _). vm_compute. exact I. }
  by apply (proj1 (Forall_forall _ _) Hall).
Qed.

Lemma java_fields_fold (P : string → string → Prop) ls (data : gmap string string) :
  (∀ key val, P (default (PyStr.strip key) (JAVA_KEY_MAP !! PyStr.lower (PyStr.strip key)))
                (PyStr.strip val)) →
  map_Forall P data →
  map_Forall P
    (foldl (λ data line,
              match PyStr.split_first ":" line with
              | Some (key, val) =>
                  let key := PyStr.strip key in
                  <[default key (JAVA_KEY_MAP !! PyStr.lower key) := PyStr.strip val]> data
              | None => data
              end) data ls).
Proof.
  intros HP. revert data. induction ls as [|l ls IH]; intros data Hd; [done|].
  cbn [foldl]. apply IH. destruct (PyStr.split_first ":" l) as [[key val]|]; [|done].
  by apply map_Forall_insert_2.
Qed.

End java_scan.

(** X8: the comment header ends at the first line that does not start,
    after trimming, with the comment sign: that line and every line after it
    change nothing. *)
Theorem X8_comment_header_stops hdr line rest :
  PyStr.startswith "#" (PyStr.strip line) = false →
  extract_comment_header (hdr ++ line :: rest) = extract_comment_header hdr.
Proof. intros Hline. by apply comment_loop_stops. Qed.

Lemma X8_comment_header_stops_witness :
  extract_comment_header
    ([ "# ID: 42" +:+ PyStr.nl ] ++ PyStr.nl :: [ "# Author: nobody" +:+ PyStr.nl ])
  = extract_comment_header [ "# ID: 42" +:+ PyStr.nl ].
Proof. apply X8_comment_header_stops. vm_compute. reflexivity. Defined.

(** X9: a file without a line that contains the header marker gives no
    field. *)
Theorem X9_java_no_marker file :
  Forall (λ l, PyStr.contains header_marker l = false) file →
  extract_java_header file = ∅.
Proof.
  intros Hfile. unfold extract_java_header.
  rewrite <- (app_nil_r file), java_loop_before_marker by done.
  vm_compute. reflexivity.
Qed.

Lemma X9_java_no_marker_witness :
  extract_java_header [ "class T {" +:+ PyStr.nl; "  String id = 7;" +:+ PyStr.nl ] = ∅.
Proof. apply X9_java_no_marker. repeat constructor. Defined.

(** X10: when the header is closed, the fields come from the lines between
    the first marker line and the first later line that has the closing
    sequence and no marker: the lines before the marker, the closing line
    and all that follows it, and every line that repeats the marker are not
    read. *)
Theorem X10_java_closed_header pre m body e post :
  Forall (λ l, PyStr.contains header_marker l = false) pre →
  PyStr.contains header_marker m = true →
  Forall (λ l, PyStr.contains header_marker l = true
               ∨ PyStr.contains header_end l = false) body →
  PyStr.contains header_marker e = false →
  PyStr.contains header_end e = true →
  extract_java_header (pre ++ m :: body ++ e :: post)
  = java_fields
      (full_header_of
         (PyStr.strip <$>
            filter (λ l, PyStr.contains header_marker l = false) body)).
Proof.
  intros. unfold extract_java_header. by rewrite java_loop_closed.
Qed.

Lemma X10_java_closed_header_witness :
  extract_java_header java_closed = {["ID" := "7"]}.
Proof.
  unfold java_closed.
  match goal with
  | |- extract_java_header [?a; ?b; ?c; ?d; ?e] = _ =>
      etrans; [apply (X10_java_closed_header [a] b [c] d [e])|]
  end.
  - repeat constructor.
  - vm_compute. reflexivity.
  - constructor; [right; vm_compute; reflexivity|constructor].
  - vm_compute. reflexivity.
  - vm_compute. reflexivity.
  - vm_compute. reflexivity.
Defined.

(** X11: every key of a Java header is trimmed and is either a canonical
    name of [JAVA_KEY_MAP] or a key that has no alias there in any letter
    case; every value is trimmed. *)
Theorem X11_java_keys_canonical file :
  map_Forall (λ k v, PyStr.strip k = k ∧ PyStr.strip v = v
                     ∧ (k ∈ canonical_names ∨ JAVA_KEY_MAP !! PyStr.lower k = None))
             (extract_java_header file).
Proof.
  unfold extract_java_header, java_fields. apply java_fields_fold.
  - intros key val. split; [|split; [apply strip_strip|]].
    + destruct (JAVA_KEY_MAP !! PyStr.lower (PyStr.strip key)) as [v|] eqn:Hk.
      * apply JAVA_KEY_MAP_values in Hk. by apply canonical_names_spec.
      * apply strip_strip.
    + destruct (JAVA_KEY_MAP !! PyStr.lower (PyStr.strip key)) as [v|] eqn:Hk.
      * left. by eapply JAVA_KEY_MAP_values.
      * by right.
  - apply map_Forall_empty.
Qed.

(** ** The groups of the ledger (lines 38-55 and 176-178) *)

Section merge_groups.

Lemma merged_groups_keys df : (merged_groups df).*1 = first_keys (keyed df).*1.
Proof.
  rewrite merged_groups_keyed, <- list_fmap_compose. apply list_fmap_id.
Qed.

Lemma elem_of_keyed_keys df g :
  g ∈ (keyed df).*1
  ↔ ∃ row, row ∈ iterrows df ∧ cells row ≠ ∅ ∧ group_key row = g.
Proof.
  unfold keyed. rewrite <- list_fmap_compose, list_elem_of_fmap. split.
  - intros (row & -> & Hrow). apply list_elem_of_filter in Hrow as [Hne Hrow].
    by exists row.
  - intros (row & Hrow & Hne & <-). exists row. split; [done|].
    by apply list_elem_of_filter.
Qed.

Lemma elem_of_group_of df g r :
  r ∈ group_of df g
  ↔ ∃ row, row ∈ iterrows df ∧ cells row = r ∧ r ≠ ∅ ∧ group_key row = g.
Proof.
  unfold group_of, keyed. rewrite list_elem_of_fmap. split.
  - intros ([k r'] & -> & Hin). apply list_elem_of_filter in Hin as [Hk Hin].
    apply list_elem_of_fmap in Hin as (row & [= -> ->] & Hrow).
    apply list_elem_of_filter in Hrow as [Hne Hrow]. by exists row.
  - intros (row & Hrow & <- & Hne & <-). exists (group_key row, cells row).
    split; [done|]. apply list_elem_of_filter. split; [done|].
    apply list_elem_of_fmap. exists row. split; [done|].
    by apply list_elem_of_filter.
Qed.

Lemma merged_groups_lookup df g M col :
  (g, M) ∈ merged_groups df →
  M !! col
  = match col_values col (group_of df g) with
    | [] => if decide (col = "Filename") then Some g else None
    | vs => Some (PyStr.join PyStr.nl (PyStr.sorted_set vs))
    end.
Proof.
  rewrite merged_groups_keyed. intros (g' & [= -> ->] & Hg)%list_elem_of_fmap.
  rewrite merged_row_lookup, group_data_lookup. fold (group_of df g').
  by destruct (col_values col (group_of df g')).
Qed.

(** The [Filename] of a merged row is trimmed already. *)
Lemma merged_Filename_clean df g F :
  frame_ok df →
  g ∈ first_keys (keyed df).*1 →
  merged_row g (group_data g (keyed df)) !! "Filename" = Some F → clean F.
Proof.
  intros Hframe Hg. rewrite merged_row_lookup, group_data_lookup.
  set (Rg := (filter (λ kr : string * gmap string string, kr.1 = g) (keyed df)).*2).
  destruct (col_values "Filename" Rg) as [|x vs] eqn:Hvs.
  - rewrite decide_True by done. intros [= <-].
    destruct (group_nonempty df g Hg) as [r Hr]. fold Rg in Hr.
    destruct (elem_of_group df g r Hr) as (_ & _ & Hkey).
    rewrite <- Hkey. apply clean_lower, clean_strip.
  - intros [= <-]. rewrite <- Hvs.
    assert (∀ y, y ∈ col_values "Filename" Rg → clean y ∧ PyStr.lower y = g)
      as Hall.
    { intros y (r & v & Hr & Hv & ->)%elem_of_col_values.
      destruct (elem_of_group df g r Hr) as (Hrow & _ & Hkey).
      split; [apply clean_strip|]. by eapply group_key_cell. }
    assert (col_values "Filename" Rg ≠ []) as Hne by (by rewrite Hvs).
    destruct (decide (g = "")) as [->|Hcase].
    + rewrite (sorted_set_singleton ""); [done..|].
      intros y Hy. apply Hall in Hy as [_ Hy]. by apply lower_empty, Hy.
    + apply clean_join; [by apply sorted_set_nonempty|].
      apply Forall_forall. intros y Hy.
      apply (proj1 (elem_of_sorted_set _ _)) in Hy.
      apply Hall in Hy as [Hc Hy]. split; [done|].
      intros ->. by apply Hcase.
Qed.

Lemma fmap_fixed {A B} (f : B → B) (h : A → B) (l : list A) :
  Forall (λ x, f (h x) = h x) l → (f ∘ h) <$> l = h <$> l.
Proof. induction 1 as [|x l Hx _ IH]; [done|]. cbn. by rewrite Hx, IH. Qed.

Lemma Filename_column df :
  "Filename" ∈ columns (merge_excel_rows df) ↔ Exists (λ row, row ≠ ∅) (rows df).
Proof.
  split.
  - unfold merge_excel_rows, DataFrame_of. cbn [columns].
    intros (X & HX & _)%elem_of_union_list.
    apply list_elem_of_fmap in HX as (M & _ & HM).
    apply list_elem_of_fmap in HM as ([g M'] & _ & HM).
    assert (g ∈ (merged_groups df).*1) as Hg.
    { apply list_elem_of_fmap. by exists (g, M'). }
    rewrite merged_groups_keys in Hg.
    apply (proj1 (proj2 (first_keys_spec _) g)) in Hg.
    apply elem_of_keyed_keys in Hg as (row & Hrow & Hne & _).
    apply list_elem_of_fmap in Hrow as (r & -> & Hr).
    apply Exists_exists. by exists r.
  - intros (r & Hr & Hne)%Exists_exists.
    apply (columns_merge_excel_rows df
             (group_key {| index := columns df; cells := r |})).
    apply (proj2 (proj2 (first_keys_spec _) _)).
    apply elem_of_keyed_keys. exists {| index := columns df; cells := r |}.
    split; [|by split]. apply list_elem_of_fmap. by exists r.
Qed.

Lemma normalize_ledger_cases raw :
  (Forall (λ row : gmap string string, row = ∅) (rows raw)
   ∧ normalize_ledger raw = Raise KeyError)
  ∨ (Exists (λ row : gmap string string, row ≠ ∅) (rows raw)
     ∧ ∃ df, normalize_ledger raw = Ok df).
Proof.
  unfold normalize_ledger. case_bool_decide as Hc.
  - right. split; [by apply Filename_column|]. by eexists.
  - left. split; [|done]. apply Forall_forall. intros r Hr.
    destruct (decide (r = ∅)) as [|Hne]; [done|]. exfalso. apply Hc.
    apply Filename_column, Exists_exists. by exists r.
Qed.

End merge_groups.

(** X12: the merged ledger has one row for every key that a row with a
    cell has, and no key twice; the keys are the trimmed, lower-cased
    filenames of these rows, and the rows of a group are the rows with a
    cell that have its key. *)
Theorem X12_merge_one_row_per_key df :
  NoDup (merged_groups df).*1
  ∧ (∀ g, g ∈ (merged_groups df).*1
          ↔ ∃ row, row ∈ iterrows df ∧ cells row ≠ ∅ ∧ group_key row = g)
  ∧ (∀ g r, r ∈ group_of df g
            ↔ ∃ row, row ∈ iterrows df ∧ cells row = r ∧ r ≠ ∅
                     ∧ group_key row = g)
  ∧ rows (merge_excel_rows df) = (merged_groups df).*2.
Proof.
  rewrite merged_groups_keys. split; [apply first_keys_spec|].
  split; [|split; [apply elem_of_group_of|done]].
  intros g. rewrite (proj2 (first_keys_spec _) g). apply elem_of_keyed_keys.
Qed.

(** X13: a cell of the merged row of a group holds the distinct trimmed
    values of its column in the rows of the group, in increasing order and
    joined by line feeds; a column without a value in the group is absent,
    except [Filename], which then holds the key of the group. *)
Theorem X13_merged_cell df g M col :
  (g, M) ∈ merged_groups df →
  ∃ vs,
    Sorted String.le vs
    ∧ NoDup vs
    ∧ (∀ x, x ∈ vs ↔ x ∈ col_values col (group_of df g))
    ∧ M !! col
      = match vs with
        | [] => if decide (col = "Filename") then Some g else None
        | _ => Some (PyStr.join PyStr.nl vs)
        end.
Proof.
  intros Hin. exists (PyStr.sorted_set (col_values col (group_of df g))).
  split; [|split; [|split]].
  - unfold PyStr.sorted_set. apply Sorted_merge_sort. apply _.
  - unfold PyStr.sorted_set. rewrite merge_sort_Permutation. apply NoDup_elements.
  - intros x. apply elem_of_sorted_set.
  - rewrite (merged_groups_lookup df g M col Hin).
    destruct (col_values col (group_of df g)) as [|x vs] eqn:Hvs.
    + reflexivity.
    + assert (PyStr.sorted_set (x :: vs) ≠ []) as Hne
        by (by apply sorted_set_nonempty).
      by destruct (PyStr.sorted_set (x :: vs)).
Qed.

Lemma X13_merged_cell_witness :
  ("report.py",
   ({["Filename" := "Report.py" +:+ PyStr.nl +:+ "report.py";
      "Excel_ID" := "7" +:+ PyStr.nl +:+ "8"]} : gmap string string))
    ∈ merged_groups ledger_variants
  ∧ ∃ vs, Sorted String.le vs ∧ NoDup vs
          ∧ Some ("7" +:+ PyStr.nl +:+ "8")
            = match vs with
              | [] => None
              | _ => Some (PyStr.join PyStr.nl vs)
              end.
Proof.
  assert (("report.py",
           ({["Filename" := "Report.py" +:+ PyStr.nl +:+ "report.py";
              "Excel_ID" := "7" +:+ PyStr.nl +:+ "8"]} : gmap string string))
            ∈ merged_groups ledger_variants) as Hin.
  { vm_compute. left. }
  split; [exact Hin|].
  destruct (X13_merged_cell ledger_variants "report.py" _ "Excel_ID" Hin)
    as (vs & Hs & Hnd & _ & Hcell).
  exists vs. split; [exact Hs|]. split; [exact Hnd|]. exact Hcell.
Defined.

(** X14: on a ledger whose cells sit under its labels, trimming the
    [Filename] column after the merge changes nothing: the frame the
    reconciliation uses is the merged ledger. *)
Theorem X14_ledger_trim_is_identity raw df :
  frame_ok raw → normalize_ledger raw = Ok df → df = merge_excel_rows raw.
Proof.
  intros Hframe. unfold normalize_ledger. case_bool_decide; [|done].
  intros [= <-].
  change (⋃ (dom <$> (merged_groups raw).*2)) with (columns (merge_excel_rows raw)).
  change ((merged_groups raw).*2) with (rows (merge_excel_rows raw)).
  assert (alter PyStr.strip "Filename" <$> rows (merge_excel_rows raw)
          = rows (merge_excel_rows raw)) as ->.
  { rewrite rows_merge_excel_rows, <- list_fmap_compose.
    apply fmap_fixed, Forall_forall. intros g Hg.
    apply alter_id. intros F HF. apply strip_clean.
    by apply (merged_Filename_clean raw g F). }
  by destruct (merge_excel_rows raw).
Qed.

Lemma X14_ledger_trim_is_identity_witness :
  frame_ok ledger_variants
  ∧ normalize_ledger ledger_variants = Ok (merge_excel_rows ledger_variants).
Proof.
  assert (frame_ok ledger_variants) as Hframe.
  { apply (bool_decide_unpack _). vm_compute. exact I. }
  split; [exact Hframe|].
  destruct (normalize_ledger ledger_variants) as [e|df] eqn:Hn.
  - exfalso. vm_compute in Hn. discriminate Hn.
  - f_equal. exact (X14_ledger_trim_is_identity ledger_variants df Hframe Hn).
Defined.

(** ** The run as a whole (lines 175-260) *)

Section main_outcomes.

Lemma reconcile_file_Ok excel_map (file_data : gmap string string) entry :
  reconcile_file excel_map file_data = Ok entry →
  excel_map !! PyStr.lower (PyStr.strip (default "" (file_data !! "Filename"))) = None.
Proof.
  unfold reconcile_file. cbv zeta.
  destruct (excel_map !! _) as [row|]; [|done].
  destruct (cells row !! "Filename") as [title|]; [|done].
  destruct (similar _ title); done.
Qed.

Lemma dom_passthrough (file_data : gmap string string) entry :
  dom (passthrough file_data entry) = dom entry ∪ dom file_data.
Proof.
  apply set_eq. intros k. rewrite elem_of_union, !elem_of_dom, passthrough_lookup.
  destruct (entry !! k) as [x|], (file_data !! k) as [v|]; simpl;
    rewrite <- ?not_eq_None_Some; naive_solver.
Qed.

Lemma excel_map_of_fold rs (m : gmap string Series) k :
  foldl (λ m row,
           <[PyStr.lower (PyStr.strip (str_cell (cells row !! "Filename"))) := row]> m)
        m rs !! k
  = match last (filter (λ row, row_key row = k) rs) with
    | Some row => Some row
    | None => m !! k
    end.
Proof.
  revert m. induction rs as [|row rs IH]; intros m; [done|].
  cbn [foldl]. rewrite IH, filter_cons. fold (row_key row).
  destruct (decide (row_key row = k)) as [<-|Hne].
  - rewrite last_cons, lookup_insert_eq. by destruct (last _).
  - by rewrite lookup_insert_ne.
Qed.

Lemma collect_folder_names {C} ext (extractor : C → gmap string string)
    filetype (dir : folder C) :
  (λ data : gmap string string, (data !! "Filename", data !! "FileType"))
    <$> collect_folder ext extractor filetype dir
  = (λ fname, (Some fname, Some filetype)) <$> names_with ext dir.
Proof.
  unfold names_with. induction dir as [|[fname file] dir IH]; [done|].
  cbn [collect_folder fmap list_fmap fst]. rewrite filter_cons.
  destruct (PyStr.endswith ext fname) eqn:He; cbn [negb].
  - rewrite decide_True by done. rewrite !fmap_cons. f_equal; [|apply IH].
    rewrite lookup_insert_eq, lookup_insert_ne by done.
    by rewrite lookup_insert_eq.
  - rewrite decide_False by done. apply IH.
Qed.

End main_outcomes.

(** X15: the outcomes of the computation of the report rows, from the
    frame read from the ledger and the files of the three folders to the
    rows handed to [to_excel]; the writing of the report is no part of it.
    The computation raises [KeyError] exactly when no row of the ledger has
    a cell; it raises [ValueError] exactly when the ledger has such a row
    and some collected file has a ledger row under its key; it gives the
    rows exactly when the ledger has such a row and no collected file has a
    ledger row; it raises nothing else. *)
Theorem X15_report_rows_outcomes raw py java word :
  (main raw py java word = Raise KeyError
   ↔ Forall (λ row : gmap string string, row = ∅) (rows raw))
  ∧ (main raw py java word = Raise ValueError
     ↔ ∃ df, normalize_ledger raw = Ok df
             ∧ Exists (matched df) (collect_files py java word))
  ∧ ((∃ results, main raw py java word = Ok results)
     ↔ ∃ df, normalize_ledger raw = Ok df
             ∧ Forall (λ file_data, ¬ matched df file_data)
                      (collect_files py java word))
  ∧ main raw py java word ≠ Raise AttributeError
  ∧ main raw py java word ≠ Raise OutOfFuel.
Proof.
  destruct (normalize_ledger_cases raw) as [[Hall Hn]|[Hex [df Hn]]].
  - assert (main raw py java word = Raise KeyError) as ->.
    { unfold main. by rewrite Hn. }
    split; [done|]. split; [|split; [|done]].
    + split; [done|]. intros (df & Hdf & _). by rewrite Hn in Hdf.
    + split; [by intros [? ?]|]. intros (df & Hdf & _). by rewrite Hn in Hdf.
  - assert (¬ Forall (λ row : gmap string string, row = ∅) (rows raw)) as Hnot.
    { intros Hall. apply Exists_exists in Hex as (r & Hr & Hne).
      by apply Hne, (proj1 (Forall_forall _ _) Hall). }
    destruct (decide (Exists (matched df) (collect_files py java word)))
      as [Hm|Hm].
    + rewrite (main_raises_on_match raw py java word df Hn Hm).
      split; [done|]. split; [|split; [|done]].
      * split; [|done]. intros _. by exists df.
      * split; [by intros [? ?]|]. intros (df' & Hdf & Hun). exfalso.
        rewrite Hn in Hdf. injection Hdf as <-.
        apply Exists_exists in Hm as (f & Hf & Hfm).
        by apply (proj1 (Forall_forall _ _) Hun f Hf).
    + apply not_Exists_Forall in Hm; [|intros ?; apply _].
      assert (Forall (λ file_data, excel_map_of df !! file_key file_data = None)
                (collect_files py java word)) as Hun.
      { eapply Forall_impl; [exact Hm|]. intros f Hf. cbn in Hf.
        by apply eq_None_not_Some. }
      destruct (main_completes raw py java word df Hn Hun) as [results ->].
      split; [done|]. split; [|split; [|done]].
      * split; [done|]. intros (df' & Hdf & Hex'). exfalso.
        rewrite Hn in Hdf. injection Hdf as <-.
        apply Exists_exists in Hex' as (f & Hf & Hfm).
        by apply (proj1 (Forall_forall _ _) Hm f Hf).
      * split; [|by eexists]. intros _. by exists df.
Qed.

(** X16: a row of the report that [reconcile_file] returns. Its keys are
    the six columns of the report and the keys of the extracted record; its
    [Filename] is the trimmed filename of the record and its [FileType] the
    one of the record; under every other key that is not a column of the
    report it holds the extracted value unchanged. *)
Theorem X16_extracted_fields_pass_through excel_map
    (file_data : gmap string string) entry :
  reconcile_file excel_map file_data = Ok entry →
  dom entry = list_to_set report_columns ∪ dom file_data
  ∧ entry !! "Filename"
    = Some (VStr (PyStr.strip (default "" (file_data !! "Filename"))))
  ∧ entry !! "FileType" = Some (VStr (default "" (file_data !! "FileType")))
  ∧ ∀ k, k ∉ report_columns → entry !! k = VStr <$> file_data !! k.
Proof.
  intros Hok. pose proof (reconcile_file_Ok _ _ _ Hok) as Hnone.
  rewrite (reconcile_file_unmatched _ _ Hnone) in Hok. injection Hok as <-.
  split; [|split; [|split]].
  - rewrite dom_passthrough. f_equal.
  - rewrite passthrough_lookup. reflexivity.
  - rewrite passthrough_lookup. reflexivity.
  - intros k Hk. rewrite passthrough_lookup.
    unfold report_columns in Hk. rewrite !not_elem_of_cons in Hk.
    destruct Hk as (? & ? & ? & ? & ? & ? & _).
    rewrite !lookup_insert_ne, lookup_singleton_ne by done. done.
Qed.

Lemma X16_extracted_fields_pass_through_witness :
  ∃ entry,
    reconcile_file (excel_map_of ledger_ghost)
      {["Filename" := " extra.java "; "FileType" := "Java"; "ID" := "7"]}
    = Ok entry
    ∧ entry !! "Filename" = Some (VStr "extra.java")
    ∧ entry !! "ID" = Some (VStr "7").
Proof.
  pose proof (reconcile_file_unmatched (excel_map_of ledger_ghost)
                {["Filename" := " extra.java "; "FileType" := "Java"; "ID" := "7"]}
                eq_refl) as Hr.
  eexists. split; [exact Hr|].
  destruct (X16_extracted_fields_pass_through _ _ _ Hr) as (_ & Hf & _ & Hk).
  split; [exact Hf|]. rewrite Hk; [reflexivity|].
  apply (bool_decide_unpack _). vm_compute. exact I.
Defined.

(** X17: the records that are collected, in their order: first the names
    of the Python folder that end in [.py], then those of the Java folder
    that end in [.java], then those of the Word folder that end in [.docx];
    each record has the name of its file as [Filename] and the type of its
    folder as [FileType], whatever the extractor gave under these keys. *)
Theorem X17_collected_records py java word :
  (λ data : gmap string string, (data !! "Filename", data !! "FileType"))
    <$> collect_files py java word
  = ((λ fname, (Some fname, Some "Python")) <$> names_with ".py" py)
    ++ ((λ fname, (Some fname, Some "Java")) <$> names_with ".java" java)
    ++ ((λ fname, (Some fname, Some "Word")) <$> names_with ".docx" word).
Proof.
  unfold collect_files. rewrite !fmap_app. by rewrite !collect_folder_names.
Qed.

(** X18: [excel_map] sends a key to the last row of the frame whose
    trimmed, lower-cased [Filename] is that key, and has no other key. *)
Theorem X18_excel_map_last_row df k :
  excel_map_of df !! k = last (filter (λ row, row_key row = k) (iterrows df)).
Proof.
  unfold excel_map_of. rewrite excel_map_of_fold, lookup_empty.
  by destruct (last _).
Qed.

(** ** The rows of a run that reaches the report (lines 176-260) *)

Lemma reconcile_all_rows excel_map all_files results processed results' processed' :
  reconcile_all excel_map all_files results processed = Ok (results', processed') →
  ∃ new, results' = results ++ new
         ∧ Forall2 (λ file_data entry, reconcile_file excel_map file_data = Ok entry)
                   all_files new.
Proof.
  revert results processed.
  induction all_files as [|file_data rest IH]; intros results processed; simpl.
  - intros [= <- <-]. exists []. by rewrite app_nil_r.
  - destruct (reconcile_file excel_map file_data) as [e|entry] eqn:He; simpl; [done|].
    intros H. apply IH in H as (new & -> & Hnew).
    exists (entry :: new). rewrite <- app_assoc. split; [done|]. by constructor.
Qed.

Lemma main_Ok raw py java word results :
  main raw py java word = Ok results →
  ∃ df file_rows processed,
    normalize_ledger raw = Ok df
    ∧ reconcile_all (excel_map_of df) (collect_files py java word) [] ∅
      = Ok (file_rows, processed)
    ∧ results = add_missing df processed file_rows.
Proof.
  unfold main. destruct (normalize_ledger raw) as [e|df]; simpl; [done|].
  destruct (reconcile_all (excel_map_of df) (collect_files py java word) [] ∅)
    as [e|[file_rows processed]] eqn:Hloop; simpl; [done|].
  intros [= <-]. by exists df, file_rows, processed.
Qed.

Lemma excel_map_of_row df row :
  row ∈ iterrows df → is_Some (excel_map_of df !! row_key row).
Proof.
  intros Hrow. unfold excel_map_of.
  assert (∀ rs (m : gmap string Series) k,
            (is_Some (m !! k) ∨ ∃ r, r ∈ rs ∧ row_key r = k) →
            is_Some (foldl (λ m row,
                       <[PyStr.lower (PyStr.strip (str_cell (cells row !! "Filename"))) := row]> m)
                     m rs !! k)) as Hfold.
  { induction rs as [|r rs IH]; intros m k [Hm|(r' & Hr' & Hk)].
    - done.
    - by apply elem_of_nil in Hr'.
    - cbn [foldl]. apply IH. left. fold (row_key r).
      destruct (decide (row_key r = k)) as [->|Hne].
      + rewrite lookup_insert_eq. by eexists.
      + by rewrite lookup_insert_ne.
    - cbn [foldl]. apply IH. fold (row_key r).
      apply elem_of_cons in Hr' as [->|Hr'].
      + left. rewrite Hk, lookup_insert_eq. by eexists.
      + right. by exists r'. }
  apply Hfold. right. by exists row.
Qed.

Lemma Forall2_unmatched excel_map (all_files : list (gmap string string))
    (new : list (gmap string value)) :
  Forall2 (λ file_data entry, reconcile_file excel_map file_data = Ok entry)
          all_files new →
  Forall (λ file_data, excel_map !! file_key file_data = None) all_files.
Proof.
  induction 1 as [|file_data entry rest new He _ IH]; constructor; [|done].
  by apply reconcile_file_Ok in He.
Qed.

Lemma reconcile_file_Error excel_map (file_data : gmap string string) entry :
  reconcile_file excel_map file_data = Ok entry →
  entry !! "Error" = Some (VStr "filename missing in excel").
Proof.
  intros Hok. pose proof (reconcile_file_Ok _ _ _ Hok) as Hnone.
  rewrite (reconcile_file_unmatched _ _ Hnone) in Hok. injection Hok as <-.
  rewrite passthrough_lookup. reflexivity.
Qed.

Lemma main_ghost_extra :
  main ledger_ghost [] java_extra [] = Ok (rows_extra ++ [residual_row "ghost.py"]).
Proof.
  vm_cast_no_check
    (eq_refl (@Ok (list (gmap string value))
                  (rows_extra ++ [residual_row "ghost.py"]))).
Qed.

(** X21: the loop over the ledger filenames appends, after the rows it is
    given and in the order of the ledger, one row for every ledger row
    whose trimmed, lower-cased filename is not among the processed ones, and
    no row for the others; such a row has the filename and the Error
    [file not found] and no other key. *)
Theorem X21_residual_loop df processed results :
  add_missing df processed results
  = results
    ++ (missing_row
          <$> filter (λ filename,
                        PyStr.lower (PyStr.strip (str_cell filename)) ∉ processed)
                     ((λ row : gmap string string, row !! "Filename") <$> rows df))
  ∧ (∀ filename : option string,
       dom (missing_row filename) = {["Filename"; "Error"]}
       ∧ missing_row filename !! "Error" = Some (VStr "file not found"))
  ∧ (∀ filename : string,
       missing_row (Some filename) !! "Filename" = Some (VStr filename)).
Proof.
  split; [apply add_missing_app|]. split; [|reflexivity].
  intros filename. split; [|reflexivity].
  unfold missing_row. rewrite dom_insert_L, dom_singleton_L. set_solver.
Qed.

(** X22: the rows of a run that gets as far as the report. No file of the
    run has a row in the ledger: every file has a row with the Error
    [filename missing in excel], in the order of the collected records, and
    after these rows every row of the ledger has a row with the Error
    [file not found], in the order of the ledger. *)
Theorem X22_completed_run_rows raw py java word results :
  main raw py java word = Ok results →
  ∃ df file_rows,
    normalize_ledger raw = Ok df
    ∧ results = file_rows ++ (residual_row <$> ledger_filenames df)
    ∧ Forall2 (λ file_data entry,
                 reconcile_file (excel_map_of df) file_data = Ok entry
                 ∧ entry !! "Error" = Some (VStr "filename missing in excel"))
              (collect_files py java word) file_rows.
Proof.
  intros (df & file_rows & processed & Hdf & Hloop & ->)%main_Ok.
  exists df, file_rows. split; [done|].
  destruct (reconcile_all_rows _ _ _ _ _ _ Hloop) as (new & Hnew & Hrows).
  cbn [app] in Hnew. subst new.
  apply reconcile_all_Ok in Hloop as [-> _].
  pose proof (Forall2_unmatched _ _ _ Hrows) as Hun.
  split.
  - rewrite add_missing_app. f_equal. unfold ledger_filenames.
    pose proof (normalize_ledger_Filename raw df Hdf) as Hfn.
    assert (∀ row, row ∈ rows df →
              PyStr.lower (PyStr.strip (str_cell (row !! "Filename")))
                ∉ list_to_set (file_key <$> collect_files py java word)
                  ∪ (∅ : gset string)) as Hkey.
    { intros row Hrow. rewrite union_empty_r_L, elem_of_list_to_set.
      intros (f & Hf & Hin)%list_elem_of_fmap.
      assert (is_Some (excel_map_of df
                         !! row_key {| index := columns df; cells := row |}))
        as [r Hr].
      { apply excel_map_of_row, list_elem_of_fmap. by exists row. }
      unfold row_key in Hr. cbn [cells] in Hr. rewrite Hf in Hr.
      rewrite (proj1 (Forall_forall _ _) Hun f Hin) in Hr. done. }
    revert Hfn Hkey. generalize (rows df). intros l Hfn Hkey.
    induction Hfn as [|row l [v Hv] _ IH]; [done|].
    rewrite !fmap_cons, filter_cons.
    rewrite decide_True by (apply Hkey; left).
    rewrite fmap_cons, IH by (intros r Hr; apply Hkey; by right).
    by rewrite Hv.
  - clear Hun. induction Hrows as [|f entry fs es He _ IH]; constructor; [|done].
    split; [done|]. by eapply reconcile_file_Error.
Qed.

Lemma X22_completed_run_rows_witness :
  ∃ df file_rows,
    normalize_ledger ledger_ghost = Ok df
    ∧ rows_extra ++ [residual_row "ghost.py"]
      = file_rows ++ (residual_row <$> ledger_filenames df)
    ∧ Forall2 (λ file_data entry,
                 reconcile_file (excel_map_of df) file_data = Ok entry
                 ∧ entry !! "Error" = Some (VStr "filename missing in excel"))
              (collect_files [] java_extra []) file_rows.
Proof. exact (X22_completed_run_rows _ _ _ _ _ main_ghost_extra). Defined.

(** ** The comparison of the mapped fields (lines 222-239) *)

Section compare.
Context (excel_row : Series) (file_data : gmap string string).

Lemma compare_step_cases remarks m :
  (fields_agree excel_row file_data m
   ∧ compare_step excel_row file_data remarks m = remarks)
  ∨ (¬ fields_agree excel_row file_data m
     ∧ length (compare_step excel_row file_data remarks m).1
       + length (compare_step excel_row file_data remarks m).2
       = S (length remarks.1 + length remarks.2)).
Proof.
  destruct m as [excel_col extracted_key]. unfold fields_agree, compare_step.
  cbn [fst snd]. cbv zeta.
  destruct (PyStr.strip (str_get excel_row excel_col "")) as [|c e] eqn:He;
    destruct (PyStr.strip (default "" (file_data !! extracted_key))) as [|c' a] eqn:Ha;
    cbn [PyStr.truthy andb negb].
  - left. by rewrite bool_decide_false by (intros ?; done).
  - right. split; [done|]. cbn [fst snd]. rewrite length_app. simpl. lia.
  - right. split; [done|]. cbn [fst snd]. rewrite length_app. simpl. lia.
  - case_bool_decide as Hd.
    + right. split; [done|]. cbn [fst snd]. rewrite length_app. simpl. lia.
    + left. split; [|done]. by destruct (decide (String c e = String c' a)).
Qed.

Lemma compare_fold l remarks :
  let r := foldl (compare_step excel_row file_data) remarks l in
  length remarks.1 + length remarks.2 ≤ length r.1 + length r.2
  ∧ length r.1 + length r.2 ≤ length remarks.1 + length remarks.2 + length l
  ∧ (r = remarks ↔ Forall (fields_agree excel_row file_data) l).
Proof.
  cbv zeta. revert remarks. induction l as [|m l IH]; intros remarks.
  { simpl. split; [lia|]. split; [lia|]. split; [constructor|done]. }
  cbn [foldl]. destruct (IH (compare_step excel_row file_data remarks m)) as (IH1 & IH2 & IH3).
  destruct (compare_step_cases remarks m) as [[Hag Heq]|[Hne Hlen]].
  - rewrite Heq in *. split; [done|]. split; [simpl; lia|].
    rewrite IH3. split; [by constructor|]. by inversion 1.
  - split; [lia|]. split; [simpl; lia|]. split.
    + intros Heq. rewrite Heq in IH1. lia.
    + by inversion 1.
Qed.

End compare.

Lemma compare_step_shape excel_row (file_data : gmap string string) remarks m :
  ∃ file_side excel_side,
    compare_step excel_row file_data remarks m
    = (remarks.1 ++ file_side, remarks.2 ++ excel_side)
    ∧ ((fields_agree excel_row file_data m ∧ file_side = [] ∧ excel_side = [])
       ∨ (¬ fields_agree excel_row file_data m
          ∧ ((file_side = [m.2 +:+ ": missing"] ∧ excel_side = [])
             ∨ (file_side = [] ∧ excel_side = [m.2 +:+ ": missing"])
             ∨ (file_side = [m.2 +:+ ": mismatch"] ∧ excel_side = [])))).
Proof.
  destruct m as [excel_col extracted_key]. unfold fields_agree, compare_step.
  cbn [fst snd]. cbv zeta.
  destruct (PyStr.strip (str_get excel_row excel_col "")) as [|c e] eqn:He;
    destruct (PyStr.strip (default "" (file_data !! extracted_key))) as [|c' a] eqn:Ha;
    cbn [PyStr.truthy andb negb].
  - exists [], []. rewrite bool_decide_false by (intros ?; done).
    rewrite !app_nil_r. split; [by destruct remarks|]. by left.
  - eexists [], [_]. rewrite app_nil_r. split; [done|]. right. split; [done|].
    right. by left.
  - eexists [_], []. rewrite app_nil_r. split; [done|]. right. split; [done|].
    by left.
  - case_bool_decide as Hd.
    + eexists [_], []. rewrite app_nil_r. split; [done|]. right. split; [done|].
      right. by right.
    + exists [], []. rewrite !app_nil_r. split; [by destruct remarks|]. left.
      split; [|done]. by destruct (decide (String c e = String c' a)).
Qed.

(** X19: the comparison of a ledger row and a record gives no remark, and
    the empty [Error], exactly when the two agree after trimming on each of
    the three mapped fields; a mapped field on which the two differ gets
    exactly one remark, a field on which they agree gets none, and there is
    no other remark. *)
Theorem X19_compare_fields_agree excel_row (file_data : gmap string string) :
  (classify (compare_fields excel_row file_data).1
            (compare_fields excel_row file_data).2 = ""
   ↔ Forall (fields_agree excel_row file_data) COLUMN_MAPPING)
  ∧ (compare_fields excel_row file_data = ([], [])
     ↔ Forall (fields_agree excel_row file_data) COLUMN_MAPPING)
  ∧ Forall (λ m,
              length (remarks_about m.2
                        ((compare_fields excel_row file_data).1
                         ++ (compare_fields excel_row file_data).2))
              = if decide (fields_agree excel_row file_data m) then 0 else 1)
           COLUMN_MAPPING
  ∧ length (compare_fields excel_row file_data).1
    + length (compare_fields excel_row file_data).2
    = length (filter (λ m, ¬ fields_agree excel_row file_data m) COLUMN_MAPPING).
Proof.
  change (compare_fields excel_row file_data)
    with (foldl (compare_step excel_row file_data) ([], []) COLUMN_MAPPING).
  destruct (compare_fold excel_row file_data COLUMN_MAPPING ([], []))
    as (_ & _ & Hiff).
  split; [|split; [exact Hiff|]].
  { rewrite <- Hiff.
    destruct (foldl _ _ _) as [[|f fs] [|e es]]; cbn [classify fst snd];
      split; intros H; try done; discriminate H. }
  clear Hiff. unfold COLUMN_MAPPING. cbn [foldl].
  repeat match goal with
         | |- context [compare_step excel_row file_data ?rem ?m] =>
             lazymatch rem with
             | context [compare_step] => fail
             | _ => destruct (compare_step_shape excel_row file_data rem m)
                      as (? & ? & -> & ?)
             end
         end.
  cbn [fst snd app] in *.
  rewrite !filter_cons, filter_nil.
  repeat match goal with
         | H : _ ∨ _ |- _ => destruct H
         | H : _ ∧ _ |- _ => destruct H
         end; subst; cbn [fst snd app];
    (split;
     [repeat (constructor; [cbn [snd]; case_decide; try done; reflexivity|]);
      constructor
     |repeat (case_decide; try done)]).
Qed.

(** ** Strings without a common character (lines 34-35) *)

Section disjoint.
Import Difflib.
Context (a b : list ascii).
Hypothesis Hdisjoint : ∀ c, c ∈ a → c ∉ b.

Lemma same_elt_disjoint i j : same_elt a b i j = false.
Proof.
  unfold same_elt. destruct (a !! i) as [x|] eqn:Ha; [|done].
  destruct (b !! j) as [y|] eqn:Hb; [|done].
  apply bool_decide_eq_false. intros ->.
  apply (Hdisjoint y); by eapply list_elem_of_lookup_2.
Qed.

Lemma chain_b_disjoint c : c ∈ a → chain_b b !! c = None.
Proof.
  intros Hc.
  assert (index_all 0 b ∅ !! c = None) as Hnone.
  { rewrite index_all_lookup. destruct (positions c 0 b) as [|n l] eqn:Hp; [done|].
    exfalso. assert (n ∈ positions c 0 b) as Hn by (rewrite Hp; left).
    apply elem_of_positions in Hn as [_ Hn].
    apply (Hdisjoint c Hc). by eapply list_elem_of_lookup_2. }
  unfold chain_b. cbv zeta. destruct (200 <=? length b); [|done].
  by rewrite map_lookup_filter, Hnone.
Qed.

Lemma scan_fold_disjoint blo bhi l st :
  (foldl (scan_step a (chain_b b) blo bhi) st l).2 = st.2.
Proof.
  revert st. induction l as [|i l IH]; intros st; [done|].
  cbn [foldl]. rewrite IH. unfold scan_step.
  destruct (a !! i) as [c|] eqn:Hc; [|done].
  rewrite chain_b_disjoint by (by eapply list_elem_of_lookup_2). done.
Qed.

Lemma extend_disjoint ok alo ahi blo bhi :
  extend a b ok alo ahi blo bhi (alo, blo, 0) = (alo, blo, 0).
Proof.
  unfold extend. cbn [fst snd].
  assert (extend_back a b ok alo blo alo blo 0 = (alo, blo, 0)) as ->.
  { destruct alo as [|i'], blo as [|j']; try done.
    cbn [extend_back]. by rewrite Nat.ltb_irrefl. }
  f_equal. destruct (ahi - (alo + 0)) as [|n]; [done|].
  cbn [extend_fwd]. by rewrite same_elt_disjoint, andb_false_r.
Qed.

Lemma find_longest_match_disjoint alo ahi blo bhi :
  find_longest_match a b (chain_b b) alo ahi blo bhi = (alo, blo, 0).
Proof.
  unfold find_longest_match, scan. cbv zeta.
  rewrite scan_fold_disjoint. cbn [snd]. by rewrite !extend_disjoint.
Qed.

Lemma get_matching_blocks_disjoint :
  get_matching_blocks a b = Some [(length a, length b, 0)].
Proof.
  unfold get_matching_blocks. cbv zeta.
  replace (2 * length a + 1) with (S (2 * length a)) by lia.
  cbn [mb_loop]. rewrite find_longest_match_disjoint. cbn [Nat.eqb].
  by destruct (2 * length a).
Qed.

End disjoint.

(** X20: two strings of which one at least is not empty and that have no
    character in common after lower-casing score 0.00. *)
Theorem X20_similar_nothing_in_common a b :
  (∀ c, c ∈ list_ascii_of_string (PyStr.lower a)
        → c ∉ list_ascii_of_string (PyStr.lower b)) →
  a ≠ "" ∨ b ≠ "" →
  similar a b = Some (0 # 100)%Q.
Proof.
  intros Hdisjoint Hne. unfold similar, Difflib.ratio.
  rewrite get_matching_blocks_disjoint by done. cbn [mbind option_bind].
  f_equal.
  set (la := length (list_ascii_of_string (PyStr.lower a))).
  set (lb := length (list_ascii_of_string (PyStr.lower b))).
  change (Difflib.calculate_ratio _ _) with (Difflib.calculate_ratio 0 (la + lb)).
  assert (la + lb ≠ 0) as Hlen.
  { subst la lb. destruct Hne as [Ha|Hb].
    - destruct a; [done|]. simpl. discriminate.
    - destruct b; [done|]. simpl. rewrite Nat.add_succ_r. discriminate. }
  destruct (calculate_ratio_percent 0 (la + lb) Hlen) as [Hn Hd].
  apply round2_exact. lia.
Qed.

Lemma X20_similar_nothing_in_common_witness :
  similar "ABC.py" "1234" = Some (0 # 100)%Q.
Proof.
  apply X20_similar_nothing_in_common; [|by left].
  apply Forall_forall. apply (bool_decide_unpack _). vm_compute. exact I.
Defined.
